(** * grail-ui: the tooltip and menu overlay engines

    A shallow embedding of [packages/grail-ui/src/tooltip/tooltip.ts] and
    [packages/grail-ui/src/menu/menu.ts].

    Each [createTooltip] / [createMenu] call builds a closure over a handful
    of mutable cells (Svelte stores, the [cleanup] variable, two timers, the
    key manager).  The embedding makes that closure state an explicit record
    and every function of the closure a state transformer.  Calls to
    collaborators that live outside the two files (the placement service,
    the caller's [onOpenChange], [HTMLElement.focus]) are recorded in logs
    kept inside the state, in call order. *)

From Stdlib Require Import String List Arith Bool Lia.
Import ListNotations.

(** An element reference ([HTMLElement]).  Only identity matters. *)
Definition Elem := nat.

(** [Array.prototype] style removal of one registration: listeners and
    subscribers are removed one instance at a time. *)
Fixpoint remove_first (e : Elem) (l : list Elem) : list Elem :=
  match l with
  | [] => []
  | x :: r => if Nat.eqb x e then r else x :: remove_first e r
  end.

Definition occurrences (e : Elem) (l : list Elem) : nat :=
  length (filter (Nat.eqb e) l).

(** [iter n f] runs [f] n times. *)
Fixpoint iter {A : Type} (n : nat) (f : A -> A) (a : A) : A :=
  match n with
  | O => a
  | S k => f (iter k f a)
  end.

(** ** The placement service ([../floating/placement], a collaborator)

    [getPlacement(trigger, overlay, options)] attaches and returns a cleanup
    function.  The embedding numbers the attachments 1, 2, 3, ... in call
    order and records every attach and every invocation of a returned
    cleanup.  The positioning options are passed through untouched by both
    widgets and are left out. *)
Module Placement.

(** The value held by the [cleanup] variable: [noop] or the cleanup
    returned by the n-th [getPlacement] call. *)
Inductive Handle : Type :=
| Noop
| Placed (n : nat).

Inductive Call : Type :=
| Attach (n : nat) (trigger overlay : Elem)
| Cleanup (n : nat).

Definition is_attach (c : Call) : bool :=
  match c with Attach _ _ _ => true | Cleanup _ => false end.

Definition is_cleanup (c : Call) : bool :=
  match c with Attach _ _ _ => false | Cleanup _ => true end.

Definition is_cleanup_of (n : nat) (c : Call) : bool :=
  match c with Attach _ _ _ => false | Cleanup m => Nat.eqb m n end.

Definition attach_count (log : list Call) : nat :=
  length (filter is_attach log).

Definition cleanup_count (log : list Call) : nat :=
  length (filter is_cleanup log).

Definition getPlacement (trigger overlay : Elem) (log : list Call)
  : Handle * list Call :=
  let n := S (attach_count log) in
  (Placed n, log ++ [Attach n trigger overlay]).

(** Calling the function held by the variable.  [noop] does nothing. *)
Definition invoke (h : Handle) (log : list Call) : list Call :=
  match h with
  | Noop => log
  | Placed n => log ++ [Cleanup n]
  end.

(** [before a b log]: an occurrence of [a] comes strictly before an
    occurrence of [b]. *)
Definition before (a b : Call) (log : list Call) : Prop :=
  exists l1 l2 l3, log = l1 ++ a :: l2 ++ b :: l3.

End Placement.

(** ** The timer engine ([../timeout], [createTimeout])

  Modelled from the spec: [createTimeout] is not among the sources.  The
  spec (section 4.1 and the TimerHandle entry of section 3) gives it a
  delay, a pending flag and the operations [start], [stop] and a settable
  delay.  [stop] cancels a pending schedule and is a no-op otherwise; a
  new delay only counts for the next [start]; with [immediate: false]
  nothing is scheduled at creation and the action never runs inside
  [start].  For [start] on a pending timer the spec has two sentences:
  section 3 says the pending invocation is replaced, section 4.1 says the
  existing schedule is preserved.  Both readings are modelled, selected by
  [StartPolicy]. *)
Module Timeout.

Inductive StartPolicy : Type :=
| Restart       (* start replaces the pending invocation *)
| KeepPending.  (* start keeps the existing schedule *)

(** [scheduled] is the host time (ms) at which the pending invocation is
    due, [None] when nothing is pending. *)
Record t : Type := mk {
  delay : nat;
  scheduled : option nat
}.

(** [createTimeout(cb, delayMs, { immediate: false })]. *)
Definition create (delayMs : nat) : t :=
  {| delay := delayMs; scheduled := None |}.

Definition pending (tm : t) : bool :=
  match scheduled tm with Some _ => true | None => false end.

Definition stop (tm : t) : t :=
  {| delay := delay tm; scheduled := None |}.

Definition setDelay (ms : nat) (tm : t) : t :=
  {| delay := ms; scheduled := scheduled tm |}.

Definition start (policy : StartPolicy) (now : nat) (tm : t) : t :=
  match policy, scheduled tm with
  | KeepPending, Some _ => tm
  | _, _ => {| delay := delay tm; scheduled := Some (now + delay tm) |}
  end.

(** The pending invocation is due at host time [target]. *)
Definition due (target : nat) (tm : t) : bool :=
  match scheduled tm with
  | Some d => Nat.leb d target
  | None => false
  end.

(** [a] fires no later than [b] (used to order two due timers). *)
Definition fires_first (a b : t) : bool :=
  match scheduled a, scheduled b with
  | Some x, Some y => Nat.leb x y
  | _, _ => true
  end.

End Timeout.

(** ** The tooltip ([tooltip/tooltip.ts]) *)
Module Tooltip.

(** The fields of [TooltipConfig] that the engine reads.  An absent field
    takes the default written in the parameter list of [createTooltip]. *)
Record TooltipConfig : Type := mkConfig {
  cfg_open : option bool;
  cfg_openDelay : option nat
}.

(** The closure state of one [createTooltip] call, together with the host
    clock and the logs of outgoing calls. *)
Record State : Type := mkState {
  now : nat;                           (* host clock, ms *)
  openDelay : nat;                     (* the openDelay parameter *)
  open : bool;                         (* open$ *)
  cleanup : Placement.Handle;          (* let cleanup *)
  showTimer : Timeout.t;               (* createTimeout(() => open$.set(true), 0) *)
  hideTimer : Timeout.t;               (* createTimeout(() => open$.set(false), 500) *)
  tooltipElement : option Elem;        (* tooltipElement$ *)
  triggers : list Elem;                (* live useTooltipTrigger instances, in subscription order *)
  overlays : list Elem;                (* live useTooltip instances *)
  placementLog : list Placement.Call;  (* calls to the placement service *)
  openChanges : list bool              (* values committed to open$, as passed to onOpenChange *)
}.

Definition with_now (x : nat) (w : State) : State :=
  mkState x (openDelay w) (open w) (cleanup w) (showTimer w) (hideTimer w)
    (tooltipElement w) (triggers w) (overlays w) (placementLog w) (openChanges w).

Definition with_open (x : bool) (w : State) : State :=
  mkState (now w) (openDelay w) x (cleanup w) (showTimer w) (hideTimer w)
    (tooltipElement w) (triggers w) (overlays w) (placementLog w) (openChanges w).

Definition with_cleanup (x : Placement.Handle) (w : State) : State :=
  mkState (now w) (openDelay w) (open w) x (showTimer w) (hideTimer w)
    (tooltipElement w) (triggers w) (overlays w) (placementLog w) (openChanges w).

Definition with_showTimer (x : Timeout.t) (w : State) : State :=
  mkState (now w) (openDelay w) (open w) (cleanup w) x (hideTimer w)
    (tooltipElement w) (triggers w) (overlays w) (placementLog w) (openChanges w).

Definition with_hideTimer (x : Timeout.t) (w : State) : State :=
  mkState (now w) (openDelay w) (open w) (cleanup w) (showTimer w) x
    (tooltipElement w) (triggers w) (overlays w) (placementLog w) (openChanges w).

Definition with_tooltipElement (x : option Elem) (w : State) : State :=
  mkState (now w) (openDelay w) (open w) (cleanup w) (showTimer w) (hideTimer w)
    x (triggers w) (overlays w) (placementLog w) (openChanges w).

Definition with_triggers (x : list Elem) (w : State) : State :=
  mkState (now w) (openDelay w) (open w) (cleanup w) (showTimer w) (hideTimer w)
    (tooltipElement w) x (overlays w) (placementLog w) (openChanges w).

Definition with_overlays (x : list Elem) (w : State) : State :=
  mkState (now w) (openDelay w) (open w) (cleanup w) (showTimer w) (hideTimer w)
    (tooltipElement w) (triggers w) x (placementLog w) (openChanges w).

Definition with_placementLog (x : list Placement.Call) (w : State) : State :=
  mkState (now w) (openDelay w) (open w) (cleanup w) (showTimer w) (hideTimer w)
    (tooltipElement w) (triggers w) (overlays w) x (openChanges w).

Definition with_openChanges (x : list bool) (w : State) : State :=
  mkState (now w) (openDelay w) (open w) (cleanup w) (showTimer w) (hideTimer w)
    (tooltipElement w) (triggers w) (overlays w) (placementLog w) x.

(** [createTooltip(config)]: [open = false], [openDelay = 1000],
    [cleanup = noop], both timers created with [immediate: false],
    [tooltipElement$ = null]. *)
Definition createTooltip (config : TooltipConfig) : State :=
  {| now := 0;
     openDelay := match cfg_openDelay config with Some d => d | None => 1000 end;
     open := match cfg_open config with Some b => b | None => false end;
     cleanup := Placement.Noop;
     showTimer := Timeout.create 0;
     hideTimer := Timeout.create 500;
     tooltipElement := None;
     triggers := [];
     overlays := [];
     placementLog := [];
     openChanges := [] |}.

(** The call [cleanup()].  The variable keeps its value. *)
Definition call_cleanup (w : State) : State :=
  with_placementLog (Placement.invoke (cleanup w) (placementLog w)) w.

(** [init(triggerElement, tooltipElement)]. *)
Definition init (triggerElement tooltipEl : Elem) (w : State) : State :=
  let w1 := call_cleanup w in
  let (h, log) := Placement.getPlacement triggerElement tooltipEl (placementLog w1) in
  with_cleanup h (with_placementLog log w1).

(** The callback subscribed to [derived([open$, tooltipElement$])] by the
    [useTooltipTrigger] instance on [element]. *)
Definition subscriber (element : Elem) (w : State) : State :=
  match open w, tooltipElement w with
  | true, Some tip => init element tip w
  | _, _ => call_cleanup w
  end.

(** A store change reaches every live subscription, in subscription order
    (Svelte stores run their subscribers synchronously).  The derived store
    hands on the same array object each time, so it never suppresses a
    notification of its own. *)
Definition notify (w : State) : State :=
  fold_left (fun acc e => subscriber e acc) (triggers w) w.

(** [open$.set(value)].

    Modelled from the spec: [writableEffect] ([../util/store]) is not among
    the sources.  Following section 3 and the first design note of the spec,
    every commit hands the new value to the registered effect (here the
    caller's [onOpenChange], recorded in [openChanges]) and then notifies
    the subscribers; as for any Svelte [writable], subscribers only run when
    the stored boolean actually changes. *)
Definition open_set (value : bool) (w : State) : State :=
  let w1 := with_openChanges (openChanges w ++ [value]) w in
  if Bool.eqb (open w) value then w1 else notify (with_open value w1).

(** [open$.update(fn)]. *)
Definition open_update (fn : bool -> bool) (w : State) : State :=
  open_set (fn (open w)) w.

(** [tooltipElement$.set(value)], a plain Svelte [writable]: an element
    (an object) always counts as a change, [null] over [null] does not. *)
Definition tooltipElement_set (value : option Elem) (w : State) : State :=
  match value, tooltipElement w with
  | None, None => w
  | _, _ => notify (with_tooltipElement value w)
  end.

Section Engine.

Variable policy : Timeout.StartPolicy.

Definition startShowTimer (w : State) : State :=
  with_showTimer (Timeout.start policy (now w) (showTimer w)) w.

Definition stopShowTimer (w : State) : State :=
  with_showTimer (Timeout.stop (showTimer w)) w.

(** [delayShowTimer.set(delay)]. *)
Definition delayShowTimer_set (delay : nat) (w : State) : State :=
  with_showTimer (Timeout.setDelay delay (showTimer w)) w.

Definition startHideTimer (w : State) : State :=
  with_hideTimer (Timeout.start policy (now w) (hideTimer w)) w.

Definition stopHideTimer (w : State) : State :=
  with_hideTimer (Timeout.stop (hideTimer w)) w.

(** [show(delay = 0)]; [None] is a call without argument. *)
Definition show (delay : option nat) (w : State) : State :=
  let d := match delay with Some d => d | None => 0 end in
  startShowTimer (delayShowTimer_set d (stopHideTimer w)).

Definition hide (w : State) : State :=
  startHideTimer (stopShowTimer w).

Definition toggle (w : State) : State :=
  open_update negb w.

(** [useTooltipTrigger(element)]: five listeners on [element] and one
    subscription, whose callback runs once at subscription time. *)
Definition useTooltipTrigger (element : Elem) (w : State) : State :=
  subscriber element (with_triggers (triggers w ++ [element]) w).

(** The [destroy] of the [useTooltipTrigger] instance on [element]:
    [cleanup(); removeEvents(); unsubscribe(); hide();]. *)
Definition destroyTrigger (element : Elem) (w : State) : State :=
  let w1 := call_cleanup w in
  let w2 := with_triggers (remove_first element (triggers w1)) w1 in
  hide w2.

(** [useTooltip(element)].  The portal only moves the node and is left
    out. *)
Definition useTooltip (element : Elem) (w : State) : State :=
  let w1 := tooltipElement_set (Some element) w in
  with_overlays (overlays w1 ++ [element]) w1.

(** The [destroy] of the [useTooltip] instance on [element]. *)
Definition destroyTooltip (element : Elem) (w : State) : State :=
  let w1 := with_overlays (remove_first element (overlays w)) w in
  tooltipElement_set None w1.

(** The DOM events the two actions listen to. *)
Inductive EventType : Type :=
| Focus
| Blur
| PointerEnter
| PointerLeave
| Click.

(** The listeners registered by one [useTooltipTrigger] instance. *)
Definition triggerListener (type : EventType) (w : State) : State :=
  match type with
  | Focus => show None w
  | Blur => hide w
  | PointerEnter => show (Some (openDelay w)) w
  | PointerLeave => hide w
  | Click => hide w
  end.

(** The listeners registered by one [useTooltip] instance. *)
Definition overlayListener (type : EventType) (w : State) : State :=
  match type with
  | PointerEnter => show None w
  | PointerLeave => hide w
  | _ => w
  end.

(** An event of [type] is dispatched on [element]: every listener
    registered on that element for that type runs.  (An element carrying
    both actions would interleave the two groups in registration order;
    the groups are run one after the other here.) *)
Definition dispatch (element : Elem) (type : EventType) (w : State) : State :=
  let w1 := iter (occurrences element (triggers w)) (triggerListener type) w in
  iter (occurrences element (overlays w)) (overlayListener type) w1.

(** The host runs the pending invocation of a timer: the timer stops being
    pending, then its action runs. *)
Definition fireShowTimer (target : nat) (w : State) : State :=
  if Timeout.due target (showTimer w)
  then open_set true (stopShowTimer w)
  else w.

Definition fireHideTimer (target : nat) (w : State) : State :=
  if Timeout.due target (hideTimer w)
  then open_set false (stopHideTimer w)
  else w.

(** [ms] milliseconds of host time pass with no other input; [elapse 0] is
    one scheduling turn.  Invocations that have become due run, the earlier
    one first.  Neither action starts a timer, so one pass is enough; and
    the two timers are never pending together in a reachable state, so the
    order of a tie is immaterial. *)
Definition elapse (ms : nat) (w : State) : State :=
  let target := now w + ms in
  let w1 :=
    if Timeout.fires_first (showTimer w) (hideTimer w)
    then fireHideTimer target (fireShowTimer target w)
    else fireShowTimer target (fireHideTimer target w) in
  with_now target w1.

(** Everything that can happen to a tooltip instance. *)
Inductive Event : Type :=
| UseTooltipTrigger (element : Elem)
| DestroyTrigger (element : Elem)
| UseTooltip (element : Elem)
| DestroyTooltip (element : Elem)
| Dispatch (element : Elem) (type : EventType)
| Show (delay : option nat)
| Hide
| Toggle
| OpenSet (value : bool)
| Elapse (ms : nat).

Definition step (ev : Event) (w : State) : State :=
  match ev with
  | UseTooltipTrigger e => useTooltipTrigger e w
  | DestroyTrigger e => destroyTrigger e w
  | UseTooltip e => useTooltip e w
  | DestroyTooltip e => destroyTooltip e w
  | Dispatch e ty => dispatch e ty w
  | Show d => show d w
  | Hide => hide w
  | Toggle => toggle w
  | OpenSet b => open_set b w
  | Elapse ms => elapse ms w
  end.

Definition run (evs : list Event) (w : State) : State :=
  fold_left (fun acc ev => step ev acc) evs w.

(** The states a tooltip created with [config] can be in. *)
Inductive reachable (config : TooltipConfig) : State -> Prop :=
| reach_create : reachable config (createTooltip config)
| reach_step : forall ev w, reachable config w -> reachable config (step ev w).

End Engine.

(** The combined condition watched by the subscription. *)
Definition attached_condition (w : State) : bool :=
  open w && match tooltipElement w with Some _ => true | None => false end.

(** One open/close toggle. *)
Definition open_close (w : State) : State := toggle (toggle w).

(** What holds of the timers and of [openDelay] in every reachable state:
    the hide timer keeps the delay it was created with, a pending hide is
    due within 500 ms, and [openDelay] is the configured value. *)
Definition timers_wf (config : TooltipConfig) (w : State) : Prop :=
  Timeout.delay (hideTimer w) = 500 /\
  (forall d, Timeout.scheduled (hideTimer w) = Some d -> d <= now w + 500) /\
  openDelay w = match cfg_openDelay config with Some d => d | None => 1000 end.

(** While the combined condition holds and a trigger is subscribed, the
    [cleanup] variable holds the cleanup of the latest attachment. *)
Definition attachment_current (w : State) : Prop :=
  attached_condition w = true ->
  triggers w <> [] ->
  cleanup w = Placement.Placed (Placement.attach_count (placementLog w)).

(** The show timer and the hide timer are never pending together. *)
Definition timers_exclusive (w : State) : Prop :=
  Timeout.pending (showTimer w) = false \/ Timeout.pending (hideTimer w) = false.

(** The own property names of the object returned by [createTooltip], with
    what each is bound to. *)
Inductive Member : Type :=
| MUseTooltipTrigger
| MTriggerAttrs
| MUseTooltip
| MTooltipAttrs
| MArrowAttrs
| MOpenStore       (* open$ *)
| MShow
| MHide
| MToggle.

Definition returned : list (string * Member) :=
  [ ("useTooltipTrigger"%string, MUseTooltipTrigger);
    ("triggerAttrs"%string, MTriggerAttrs);
    ("useTooltip"%string, MUseTooltip);
    ("tooltipAttrs"%string, MTooltipAttrs);
    ("arrowAttrs"%string, MArrowAttrs);
    ("open"%string, MOpenStore);
    ("show"%string, MShow);
    ("hide"%string, MHide);
    ("toggle"%string, MToggle) ].

End Tooltip.

(** ** The menu ([menu/menu.ts]) *)
Module Menu.

(** [KeyboardEvent.key], as far as the handlers tell keys apart (the
    constants of [../util/keyboard]). *)
Inductive Key : Type :=
| SPACE
| ENTER
| ESCAPE
| TAB
| DOWN_ARROW
| UP_ARROW
| OtherKey (name : string).

(** What the menu reads from the document. *)
Record Document : Type := mkDocument {
  menuitems : Elem -> list Elem;  (* parent.querySelectorAll('[role=menuitem]'), in document order *)
  disabledData : Elem -> bool;    (* 'disabled' in item.dataset *)
  roleMenuitem : Elem -> bool;    (* getAttribute('role') === 'menuitem' *)
  byId : option Elem              (* document.getElementById(id), id being this menu's id *)
}.

(** [getMenuItems(parent)]. *)
Definition getMenuItems (d : Document) (parent : Elem) : list Elem :=
  menuitems d parent.

(** The [skipPredicate] handed to [listKeyManager]. *)
Definition skipPredicate (d : Document) (item : Elem) : bool :=
  disabledData d item.

(** The key manager ([../keyManager/listKeyManager]).

    Modelled from the spec: [listKeyManager] is not among the sources.
    Section 4.2 gives it an item list (fed by the [items] store until
    [destroy] releases the subscription) and an active item or "none". *)
Record KeyManager : Type := mkKeyManager {
  km_items : list Elem;
  km_active : option Elem;
  km_subscribed : bool
}.

(** What a key manager operation may ask of its owner: the [onActivate]
    and [tabOut] callbacks of the configuration. *)
Inductive ManagerCall : Type :=
| OnActivate (item : Elem)
| TabOut.

(** The code paused at an [await tick()]. *)
Inductive Continuation : Type :=
| EffectResume               (* the effect of open$, called with true *)
| ArrowResume (key : Key).   (* openMenuWithArrow(e) with e.key = key *)

(** The closure state of one [createMenu] call, the document, and the logs
    of outgoing calls. *)
Record State : Type := mkState {
  open : bool;                         (* open$ *)
  cleanup : Placement.Handle;          (* let cleanup *)
  overlayElement : option Elem;        (* overlayElement$ *)
  items : list Elem;                   (* the items store *)
  keyManager : KeyManager;
  triggers : list Elem;                (* live useTrigger instances, in subscription order *)
  overlays : list Elem;                (* live useMenu instances *)
  doc : Document;
  awaiting : list Continuation;        (* paused at await tick(), oldest first *)
  placementLog : list Placement.Call;  (* calls to the placement service *)
  focusLog : list Elem;                (* calls of element.focus() *)
  openChangeLog : list bool            (* calls of the caller's onOpenChange *)
}.

Definition with_open (x : bool) (w : State) : State :=
  mkState x (cleanup w) (overlayElement w) (items w) (keyManager w) (triggers w)
    (overlays w) (doc w) (awaiting w) (placementLog w) (focusLog w) (openChangeLog w).

Definition with_cleanup (x : Placement.Handle) (w : State) : State :=
  mkState (open w) x (overlayElement w) (items w) (keyManager w) (triggers w)
    (overlays w) (doc w) (awaiting w) (placementLog w) (focusLog w) (openChangeLog w).

Definition with_overlayElement (x : option Elem) (w : State) : State :=
  mkState (open w) (cleanup w) x (items w) (keyManager w) (triggers w)
    (overlays w) (doc w) (awaiting w) (placementLog w) (focusLog w) (openChangeLog w).

Definition with_items (x : list Elem) (w : State) : State :=
  mkState (open w) (cleanup w) (overlayElement w) x (keyManager w) (triggers w)
    (overlays w) (doc w) (awaiting w) (placementLog w) (focusLog w) (openChangeLog w).

Definition with_keyManager (x : KeyManager) (w : State) : State :=
  mkState (open w) (cleanup w) (overlayElement w) (items w) x (triggers w)
    (overlays w) (doc w) (awaiting w) (placementLog w) (focusLog w) (openChangeLog w).

Definition with_triggers (x : list Elem) (w : State) : State :=
  mkState (open w) (cleanup w) (overlayElement w) (items w) (keyManager w) x
    (overlays w) (doc w) (awaiting w) (placementLog w) (focusLog w) (openChangeLog w).

Definition with_overlays (x : list Elem) (w : State) : State :=
  mkState (open w) (cleanup w) (overlayElement w) (items w) (keyManager w) (triggers w)
    x (doc w) (awaiting w) (placementLog w) (focusLog w) (openChangeLog w).

Definition with_doc (x : Document) (w : State) : State :=
  mkState (open w) (cleanup w) (overlayElement w) (items w) (keyManager w) (triggers w)
    (overlays w) x (awaiting w) (placementLog w) (focusLog w) (openChangeLog w).

Definition with_awaiting (x : list Continuation) (w : State) : State :=
  mkState (open w) (cleanup w) (overlayElement w) (items w) (keyManager w) (triggers w)
    (overlays w) (doc w) x (placementLog w) (focusLog w) (openChangeLog w).

Definition with_placementLog (x : list Placement.Call) (w : State) : State :=
  mkState (open w) (cleanup w) (overlayElement w) (items w) (keyManager w) (triggers w)
    (overlays w) (doc w) (awaiting w) x (focusLog w) (openChangeLog w).

Definition with_focusLog (x : list Elem) (w : State) : State :=
  mkState (open w) (cleanup w) (overlayElement w) (items w) (keyManager w) (triggers w)
    (overlays w) (doc w) (awaiting w) (placementLog w) x (openChangeLog w).

Definition with_openChangeLog (x : list bool) (w : State) : State :=
  mkState (open w) (cleanup w) (overlayElement w) (items w) (keyManager w) (triggers w)
    (overlays w) (doc w) (awaiting w) (placementLog w) (focusLog w) x.

(** The fields of [MenuConfig] that the engine reads. *)
Record MenuConfig : Type := mkConfig {
  cfg_open : option bool
}.

(** [createMenu(config)] in document [d]: [open = false], [cleanup = noop],
    an empty [items] store, a fresh key manager, [overlayElement$ = null]. *)
Definition createMenu (config : MenuConfig) (d : Document) : State :=
  {| open := match cfg_open config with Some b => b | None => false end;
     cleanup := Placement.Noop;
     overlayElement := None;
     items := [];
     keyManager := {| km_items := []; km_active := None; km_subscribed := true |};
     triggers := [];
     overlays := [];
     doc := d;
     awaiting := [];
     placementLog := [];
     focusLog := [];
     openChangeLog := [] |}.

(** [element.focus()]. *)
Definition focus (element : Elem) (w : State) : State :=
  with_focusLog (focusLog w ++ [element]) w.

(** [getTrigger()?.focus()]. *)
Definition focusTrigger (w : State) : State :=
  match byId (doc w) with
  | Some t => focus t w
  | None => w
  end.

(** [onActivate: (item) => item.focus()]. *)
Definition onActivate (item : Elem) (w : State) : State :=
  focus item w.

(** [keyManager.setActiveItem(-1)].

    Modelled from the spec: section 4.2, index -1 clears the active item to
    "none" without invoking [onActivate]. *)
Definition setActiveItem_none (w : State) : State :=
  let km := keyManager w in
  with_keyManager (mkKeyManager (km_items km) None (km_subscribed km)) w.

(** [keyManager.setActiveItem(item)] with an element.

    Modelled from the spec: section 4.2, the active item is set directly;
    an element that is not in the list is treated like an index out of
    range. *)
Definition setActiveItem (item : Elem) (w : State) : State :=
  let km := keyManager w in
  if existsb (Nat.eqb item) (km_items km)
  then onActivate item
         (with_keyManager (mkKeyManager (km_items km) (Some item) (km_subscribed km)) w)
  else setActiveItem_none w.

(** The scan shared by [setFirstItemActive] and [setLastItemActive]: the
    first item of [candidates] the skip predicate does not exclude. *)
Definition first_eligible (d : Document) (candidates : list Elem) : option Elem :=
  find (fun item => negb (skipPredicate d item)) candidates.

Definition activate_first_of (candidates : list Elem) (w : State) : State :=
  let km := keyManager w in
  match first_eligible (doc w) candidates with
  | Some item =>
      onActivate item
        (with_keyManager (mkKeyManager (km_items km) (Some item) (km_subscribed km)) w)
  | None => w
  end.

(** [keyManager.setFirstItemActive()].

    Modelled from the spec: section 4.2, scan from the first end, skip the
    items the skip predicate excludes, invoke [onActivate] on the first
    eligible item, do nothing if there is none. *)
Definition setFirstItemActive (w : State) : State :=
  activate_first_of (km_items (keyManager w)) w.

(** [keyManager.setLastItemActive()]: the same scan from the last end. *)
Definition setLastItemActive (w : State) : State :=
  activate_first_of (rev (km_items (keyManager w))) w.

(** [keyManager.destroy()]: releases the subscription to [items]. *)
Definition keyManager_destroy (w : State) : State :=
  let km := keyManager w in
  with_keyManager (mkKeyManager (km_items km) (km_active km) false) w.

(** [items.set(value)]: the key manager sees the list while subscribed. *)
Definition items_set (value : list Elem) (w : State) : State :=
  let km := keyManager w in
  let w1 := with_items value w in
  if km_subscribed km
  then with_keyManager (mkKeyManager value (km_active km) true) w1
  else w1.

(** The call [cleanup()].  The variable keeps its value. *)
Definition call_cleanup (w : State) : State :=
  with_placementLog (Placement.invoke (cleanup w) (placementLog w)) w.

(** [setupPlacement(triggerElement, overlayElement)].  The function is
    [async] but has no [await]: its body runs to the end inside the call. *)
Definition setupPlacement (triggerElement overlayEl : Elem) (w : State) : State :=
  let w1 := call_cleanup w in
  let (h, log) := Placement.getPlacement triggerElement overlayEl (placementLog w1) in
  with_cleanup h (with_placementLog log w1).

(** The callback subscribed to [derived([open$, overlayElement$])] by the
    [useTrigger] instance on [element]. *)
Definition subscriber (element : Elem) (w : State) : State :=
  match open w, overlayElement w with
  | true, Some ov =>
      let w1 := setupPlacement element ov w in
      items_set (getMenuItems (doc w1) ov) w1
  | _, _ => call_cleanup (setActiveItem_none w)
  end.

Definition notify (w : State) : State :=
  fold_left (fun acc e => subscriber e acc) (triggers w) w.

(** The effect registered with [writableEffect]: for [true] it pauses at
    [await tick()] before touching anything; for [false] it reports to
    [onOpenChange] at once. *)
Definition effect (isOpen : bool) (w : State) : State :=
  if isOpen
  then with_awaiting (awaiting w ++ [EffectResume]) w
  else with_openChangeLog (openChangeLog w ++ [false]) w.

(** [open$.set(value)].

    Modelled from the spec: [writableEffect] ([../util/store]) is not among
    the sources; see [Tooltip.open_set].  The effect runs first, then the
    subscribers, and these only when the boolean changes. *)
Definition open_set (value : bool) (w : State) : State :=
  let w1 := effect value w in
  if Bool.eqb (open w) value then w1 else notify (with_open value w1).

Definition open_update (fn : bool -> bool) (w : State) : State :=
  open_set (fn (open w)) w.

(** [overlayElement$.set(value)], a plain Svelte [writable]. *)
Definition overlayElement_set (value : option Elem) (w : State) : State :=
  match value, overlayElement w with
  | None, None => w
  | _, _ => notify (with_overlayElement value w)
  end.

(** [hide(returnFocus = false)]. *)
Definition hide (returnFocus : bool) (w : State) : State :=
  let w1 := open_set false w in
  if returnFocus then focusTrigger w1 else w1.

Definition toggle (w : State) : State :=
  open_update negb w.

(** [openMenuWithArrow(e)] up to its [await tick()].  [preventDefault]
    only marks the event object. *)
Definition openMenuWithArrow (key : Key) (w : State) : State :=
  let w1 := open_set true w in
  with_awaiting (awaiting w1 ++ [ArrowResume key]) w1.

(** The [handleKeyDown] of [useTrigger]. *)
Definition useTrigger_handleKeyDown (key : Key) (w : State) : State :=
  match key with
  | SPACE | ENTER => toggle w
  | ESCAPE => hide false w
  | TAB => hide false w
  | DOWN_ARROW | UP_ARROW => openMenuWithArrow key w
  | OtherKey _ => w
  end.

(** What runs when a paused [await tick()] resumes. *)
Definition resume (k : Continuation) (w : State) : State :=
  match k with
  | EffectResume =>
      let w1 := match overlayElement w with Some ov => focus ov w | None => w end in
      with_openChangeLog (openChangeLog w1 ++ [true]) w1
  | ArrowResume key =>
      match key with
      | DOWN_ARROW => setFirstItemActive w
      | _ => setLastItemActive w
      end
  end.

(** The promise of [tick()] resolves: everything paused on it resumes, in
    the order in which it paused. *)
Definition tick (w : State) : State :=
  fold_left (fun acc k => resume k acc) (awaiting w) (with_awaiting [] w).

(** [useTrigger(element)]: two listeners and one subscription, whose
    callback runs once at subscription time. *)
Definition useTrigger (element : Elem) (w : State) : State :=
  subscriber element (with_triggers (triggers w ++ [element]) w).

(** The [destroy] of the [useTrigger] instance on [element]:
    [keyManager.destroy(); cleanup(); removeEvents(); unsubscribe(); hide();]. *)
Definition destroyTrigger (element : Elem) (w : State) : State :=
  let w1 := call_cleanup (keyManager_destroy w) in
  let w2 := with_triggers (remove_first element (triggers w1)) w1 in
  hide false w2.

(** [useMenu(element)].  The portal only moves the node and is left out. *)
Definition useMenu (element : Elem) (w : State) : State :=
  let w1 := overlayElement_set (Some element) w in
  with_overlays (overlays w1 ++ [element]) w1.

(** The [destroy] of the [useMenu] instance on [element]. *)
Definition destroyMenu (element : Elem) (w : State) : State :=
  let w1 := with_overlays (remove_first element (overlays w)) w in
  overlayElement_set None w1.

(** The handler given to [useClickOutside] ([../clickOutside], not among
    the sources), taken to be called for a click outside the overlay while
    its [enabled] store, [open$], holds true; [target] is the event
    target. *)
Definition clickOutside (target : Elem) (defaultPrevented : bool) (w : State) : State :=
  let targetHasId :=
    match byId (doc w) with Some t => Nat.eqb t target | None => false end in
  if open w && negb defaultPrevented && negb targetHasId
  then hide false w
  else w.

(** The [pointerover] listener of [useMenu]. *)
Definition overlayPointerOver (target : Elem) (w : State) : State :=
  match km_active (keyManager w) with
  | Some _ => if roleMenuitem (doc w) target then setActiveItem target w else w
  | None => w
  end.

Section Engine.

(** [keyManager.onKeydown(event)], which is not among the sources, is taken
    as given: from the key, the document and the manager it yields the new
    manager and the callbacks it invokes. *)
Variable onKeydown : Key -> Document -> KeyManager -> KeyManager * list ManagerCall.

(** [tabOut: () => hide()] and [onActivate]. *)
Definition managerCall (c : ManagerCall) (w : State) : State :=
  match c with
  | OnActivate item => onActivate item w
  | TabOut => hide false w
  end.

(** The [handleKeyDown] of [useMenu]. *)
Definition useMenu_handleKeyDown (key : Key) (w : State) : State :=
  match key with
  | ESCAPE => hide true w
  | _ =>
      let (km, calls) := onKeydown key (doc w) (keyManager w) in
      fold_left (fun acc c => managerCall c acc) calls (with_keyManager km w)
  end.

(** Everything that can happen to a menu instance. *)
Inductive Event : Type :=
| UseTrigger (element : Elem)
| DestroyTrigger (element : Elem)
| UseMenu (element : Elem)
| DestroyMenu (element : Elem)
| TriggerClick (element : Elem)
| TriggerKeydown (element : Elem) (key : Key)
| OverlayKeydown (element : Elem) (key : Key)
| OverlayPointerOver (element target : Elem)
| ClickOutside (element target : Elem) (defaultPrevented : bool)
| OpenSet (value : bool)
| DocumentChange (d : Document)
| Tick.

Definition step (ev : Event) (w : State) : State :=
  match ev with
  | UseTrigger e => useTrigger e w
  | DestroyTrigger e => destroyTrigger e w
  | UseMenu e => useMenu e w
  | DestroyMenu e => destroyMenu e w
  | TriggerClick e => iter (occurrences e (triggers w)) toggle w
  | TriggerKeydown e key => iter (occurrences e (triggers w)) (useTrigger_handleKeyDown key) w
  | OverlayKeydown e key => iter (occurrences e (overlays w)) (useMenu_handleKeyDown key) w
  | OverlayPointerOver e target =>
      iter (occurrences e (overlays w)) (overlayPointerOver target) w
  | ClickOutside e target prevented =>
      iter (occurrences e (overlays w)) (clickOutside target prevented) w
  | OpenSet b => open_set b w
  | DocumentChange d => with_doc d w
  | Tick => tick w
  end.

Definition run (evs : list Event) (w : State) : State :=
  fold_left (fun acc ev => step ev acc) evs w.

(** The states a menu created with [config] in document [d] can be in. *)
Inductive reachable (config : MenuConfig) (d : Document) : State -> Prop :=
| reach_create : reachable config d (createMenu config d)
| reach_step : forall ev w, reachable config d w -> reachable config d (step ev w).

End Engine.

(** The combined condition watched by the subscription. *)
Definition attached_condition (w : State) : bool :=
  open w && match overlayElement w with Some _ => true | None => false end.

(** One open/close toggle (two clicks on the trigger). *)
Definition open_close (w : State) : State := toggle (toggle w).

(** While the combined condition holds and a trigger is subscribed, the
    [cleanup] variable holds the cleanup of the latest attachment. *)
Definition attachment_current (w : State) : Prop :=
  attached_condition w = true ->
  triggers w <> [] ->
  cleanup w = Placement.Placed (Placement.attach_count (placementLog w)).

(** The part of the state the attachment lifecycle depends on. *)
Definition lifecycle (w : State)
  : bool * option Elem * list Elem * Placement.Handle * list Placement.Call :=
  (open w, overlayElement w, triggers w, cleanup w, placementLog w).

(** [item] is the first of [l] that the skip predicate does not exclude. *)
Definition first_not_skipped (d : Document) (item : Elem) (l : list Elem) : Prop :=
  exists l1 l2,
    l = l1 ++ item :: l2 /\
    skipPredicate d item = false /\
    forall x, In x l1 -> skipPredicate d x = true.

(** [item] is the last of [l] that the skip predicate does not exclude. *)
Definition last_not_skipped (d : Document) (item : Elem) (l : list Elem) : Prop :=
  exists l1 l2,
    l = l1 ++ item :: l2 /\
    skipPredicate d item = false /\
    forall x, In x l2 -> skipPredicate d x = true.

(** The own property names of the object returned by [createMenu], with
    what each is bound to.  [hide] and [toggle] stay local to the closure;
    the menu defines no [show]. *)
Inductive Member : Type :=
| MUseTrigger
| MTriggerAttrs
| MUseMenu
| MMenuAttrs
| MItemAttrs
| MSeparatorAttrs
| MOpenStore.      (* open$ *)

Definition returned : list (string * Member) :=
  [ ("useTrigger"%string, MUseTrigger);
    ("triggerAttrs"%string, MTriggerAttrs);
    ("useMenu"%string, MUseMenu);
    ("menuAttrs"%string, MMenuAttrs);
    ("itemAttrs"%string, MItemAttrs);
    ("separatorAttrs"%string, MSeparatorAttrs);
    ("open"%string, MOpenStore) ].

End Menu.

(** Property lookup on a returned object: [obj.name], [None] standing for
    [undefined]. *)
Fixpoint property {A : Type} (name : string) (obj : list (string * A)) : option A :=
  match obj with
  | [] => None
  | (k, v) :: rest => if String.eqb k name then Some v else property name rest
  end.

(** ** Auxiliary definitions used in the statements *)

(** Host time passes in several steps, with no other input in between. *)
Definition tooltip_elapses (policy : Timeout.StartPolicy) (ms : list nat)
  (w : Tooltip.State) : Tooltip.State :=
  Tooltip.run policy (map Tooltip.Elapse ms) w.

(** The placement calls made by [n] open/close toggles of a freshly mounted
    widget: the k-th toggle first calls the stored cleanup (that of
    attachment k-1, if any), attaches, and on closing calls the cleanup of
    attachment k. *)
Fixpoint toggles_log (trigger overlay : Elem) (n : nat) : list Placement.Call :=
  match n with
  | O => []
  | S k =>
      toggles_log trigger overlay k
        ++ Placement.invoke (match k with O => Placement.Noop | S _ => Placement.Placed k end) []
        ++ [Placement.Attach (S k) trigger overlay; Placement.Cleanup (S k)]
  end.

(** A tooltip with default configuration, trigger on element 1, overlay on
    element 2, opened by a focus event. *)
Definition tooltip_mounted (policy : Timeout.StartPolicy) : Tooltip.State :=
  Tooltip.run policy
    [Tooltip.UseTooltipTrigger 1; Tooltip.UseTooltip 2]
    (Tooltip.createTooltip (Tooltip.mkConfig None None)).

Definition tooltip_opened (policy : Timeout.StartPolicy) : Tooltip.State :=
  Tooltip.run policy
    [Tooltip.Dispatch 1 Tooltip.Focus; Tooltip.Elapse 0]
    (tooltip_mounted policy).

(** A document for the menu: the trigger is element 1 and carries the
    menu's id; the overlay is element 2 and holds the items 10, 11, 12, of
    which 10 is disabled. *)
Definition menu_document : Menu.Document :=
  {| Menu.menuitems := fun parent => if Nat.eqb parent 2 then [10; 11; 12] else [];
     Menu.disabledData := fun item => Nat.eqb item 10;
     Menu.roleMenuitem := fun item => Nat.leb 10 item;
     Menu.byId := Some 1 |}.

(** A key manager that ignores every key. *)
Definition idle_onKeydown (key : Menu.Key) (d : Menu.Document) (km : Menu.KeyManager)
  : Menu.KeyManager * list Menu.ManagerCall :=
  (km, []).

(** A menu with default configuration, trigger and overlay mounted. *)
Definition menu_mounted : Menu.State :=
  Menu.run idle_onKeydown
    [Menu.UseTrigger 1; Menu.UseMenu 2]
    (Menu.createMenu (Menu.mkConfig None) menu_document).

(** The same menu, opened by a click and settled. *)
Definition menu_opened : Menu.State :=
  Menu.run idle_onKeydown [Menu.TriggerClick 1; Menu.Tick] menu_mounted.

(** A tooltip with two triggers (elements 1 and 3) and its overlay (element
    2) mounted, opened by [toggle]. *)
Definition tooltip_two_triggers (policy : Timeout.StartPolicy) : Tooltip.State :=
  Tooltip.run policy
    [Tooltip.UseTooltipTrigger 1; Tooltip.UseTooltipTrigger 3; Tooltip.UseTooltip 2;
     Tooltip.Toggle]
    (Tooltip.createTooltip (Tooltip.mkConfig None None)).

(** The mounted menu after ArrowDown on the trigger, settled: item 11 is
    active. *)
Definition menu_navigating : Menu.State :=
  Menu.run idle_onKeydown
    [Menu.TriggerKeydown 1 Menu.DOWN_ARROW; Menu.Tick] menu_mounted.

(** ** Definitions for further properties *)

(** The cleanup of the most recent attachment, the no-op before the first
    attachment. *)
Definition latest_handle (log : list Placement.Call) : Placement.Handle :=
  match Placement.attach_count log with
  | O => Placement.Noop
  | S k => Placement.Placed (S k)
  end.

(** Every attachment after the first comes right after a call of the
    cleanup of the attachment before it. *)
Definition cleaned_before_attach (log : list Placement.Call) : Prop :=
  forall l1 n e o l2,
    log = l1 ++ Placement.Attach (S (S n)) e o :: l2 ->
    exists l0, l1 = l0 ++ [Placement.Cleanup (S n)].

(** The [cleanup] variable and the log agree. *)
Definition placement_wf (h : Placement.Handle) (log : list Placement.Call) : Prop :=
  h = latest_handle log /\ cleaned_before_attach log.

(** A mounted tooltip on which [hide()] has just been called. *)
Definition tooltip_hiding (policy : Timeout.StartPolicy) : Tooltip.State :=
  Tooltip.run policy [Tooltip.Hide] (tooltip_mounted policy).

(** The [itemAttrs] store of the menu ([menu.ts], lines 63 to 75). *)
Module MenuAttrs.

(** The argument of the function held by [itemAttrs]: a string, or an
    object with [id] and [label]; [id] stands for the text the template
    literal makes of it. *)
Inductive ItemArg : Type :=
| Plain (text : string)
| Labelled (id : string) (label : string).

Definition arg_id (attrs : ItemArg) : string :=
  match attrs with Plain text => text | Labelled id _ => id end.

Definition arg_label (attrs : ItemArg) : string :=
  match attrs with Plain text => text | Labelled _ label => label end.

(** The function held by the store when the [id] attribute of the active
    item is [activeId] ([None] when there is no active item). *)
Definition itemAttrs (activeId : option string) (attrs : ItemArg)
  : list (string * string) :=
  let id := arg_id attrs in
  let label := arg_label attrs in
  let itemId := String.append "menuitem_" id in
  [ ("role"%string, "menuitem"%string);
    ("id"%string, itemId);
    ("tabindex"%string,
       match activeId with
       | Some a => if String.eqb a itemId then "0"%string else "-1"%string
       | None => "-1"%string
       end);
    ("data-label"%string, label) ].

End MenuAttrs.

(** ** General facts *)

Lemma iter_preserves {A : Type} (P : A -> Prop) (f : A -> A) :
  (forall a, P a -> P (f a)) -> forall n a, P a -> P (iter n f a).
Proof. intros Hf n a Ha. induction n; cbn; auto. Qed.

Lemma remove_first_nonempty (e : Elem) (l : list Elem) :
  remove_first e l <> [] -> l <> [].
Proof. destruct l; [intros H; exact H|discriminate]. Qed.

(** ** Properties of the placement log *)
Module PlacementSpec.
Import Placement.

Lemma attach_count_app (l1 l2 : list Call) :
  attach_count (l1 ++ l2) = attach_count l1 + attach_count l2.
Proof. unfold attach_count. rewrite filter_app, length_app. reflexivity. Qed.

Lemma cleanup_count_app (l1 l2 : list Call) :
  cleanup_count (l1 ++ l2) = cleanup_count l1 + cleanup_count l2.
Proof. unfold cleanup_count. rewrite filter_app, length_app. reflexivity. Qed.

Lemma attach_count_invoke (h : Handle) (log : list Call) :
  attach_count (invoke h log) = attach_count log.
Proof.
  destruct h; cbn [invoke]; [reflexivity|].
  rewrite attach_count_app. cbn. lia.
Qed.

Lemma before_app_r (a b : Call) (l l' : list Call) :
  before a b l -> before a b (l ++ l').
Proof.
  intros (l1 & l2 & l3 & ->). exists l1, l2, (l3 ++ l').
  rewrite <- !app_assoc. cbn. rewrite <- !app_assoc. reflexivity.
Qed.

Lemma toggles_log_attaches (e t : Elem) (n : nat) :
  attach_count (toggles_log e t n) = n.
Proof.
  induction n as [|k IH]; [reflexivity|].
  cbn [toggles_log]. rewrite !attach_count_app, IH, attach_count_invoke. cbn. lia.
Qed.

Lemma toggles_log_cleanups (e t : Elem) (n : nat) :
  cleanup_count (toggles_log e t n) = 2 * n - 1.
Proof.
  induction n as [|k IH]; [reflexivity|].
  cbn [toggles_log]. rewrite !cleanup_count_app, IH.
  destruct k; cbn; lia.
Qed.

Lemma toggles_log_order (e t : Elem) (n : nat) :
  forall i, 1 <= i -> i < n ->
    before (Cleanup i) (Attach (S i) e t) (toggles_log e t n).
Proof.
  induction n as [|k IH]; intros i H1 H2; [lia|].
  cbn [toggles_log].
  destruct (Nat.eq_dec i k) as [->|Hne].
  - destruct k as [|k]; [lia|].
    exists (toggles_log e t (S k)), [], [Cleanup (S (S k))]. reflexivity.
  - apply before_app_r. apply IH; lia.
Qed.

(** Every handle returned during the toggles is invoked. *)
Lemma toggles_log_all_invoked (e t : Elem) (n : nat) :
  forall i, 1 <= i -> i <= n -> In (Cleanup i) (toggles_log e t n).
Proof.
  induction n as [|k IH]; intros i H1 H2; [lia|].
  cbn [toggles_log]. rewrite !in_app_iff.
  destruct (Nat.eq_dec i (S k)) as [->|Hne].
  - right; right. right; left; reflexivity.
  - left. apply IH; lia.
Qed.

(** From the second toggle on, the cleanup of the previous attachment is
    invoked a second time. *)
Lemma toggles_log_twice (e t : Elem) (n : nat) :
  forall i, 1 <= i -> i < n ->
    length (filter (is_cleanup_of i) (toggles_log e t n)) = 2.
Proof.
  assert (Hzero : forall m i, m < i ->
            length (filter (is_cleanup_of i) (toggles_log e t m)) = 0).
  { induction m as [|k IH]; intros i Hi; [reflexivity|].
    cbn [toggles_log]. rewrite !filter_app, !length_app, IH by lia.
    destruct k; cbn -[Nat.eqb].
    - destruct (Nat.eqb_spec 1 i); [lia|reflexivity].
    - destruct (Nat.eqb_spec (S k) i); [lia|].
      destruct (Nat.eqb_spec (S (S k)) i); [lia|reflexivity]. }
  assert (Hone : forall i, 1 <= i ->
            length (filter (is_cleanup_of i) (toggles_log e t i)) = 1).
  { intros i Hi. destruct i as [|k]; [lia|].
    cbn [toggles_log]. rewrite !filter_app, !length_app, Hzero by lia.
    destruct k; cbn -[Nat.eqb].
    - reflexivity.
    - destruct (Nat.eqb_spec (S k) (S (S k))); [lia|].
      rewrite Nat.eqb_refl. reflexivity. }
  induction n as [|k IH]; intros i H1 H2; [lia|].
  cbn [toggles_log]. rewrite !filter_app, !length_app.
  destruct (Nat.eq_dec i k) as [->|Hne].
  - rewrite Hone by lia. destruct k; [lia|]. cbn -[Nat.eqb].
    rewrite Nat.eqb_refl.
    destruct (Nat.eqb_spec (S (S k)) (S k)); [lia|reflexivity].
  - rewrite IH by lia. destruct k; [lia|]. cbn -[Nat.eqb].
    destruct (Nat.eqb_spec (S k) i); [lia|].
    destruct (Nat.eqb_spec (S (S k)) i); [lia|reflexivity].
Qed.

Lemma attach_count_snoc_attach (l : list Call) (n : nat) (a b : Elem) :
  attach_count (l ++ [Attach n a b]) = S (attach_count l).
Proof. rewrite attach_count_app. cbn. lia. Qed.

Lemma attach_count_snoc_cleanup (l : list Call) (n : nat) :
  attach_count (l ++ [Cleanup n]) = attach_count l.
Proof. rewrite attach_count_app. cbn. lia. Qed.

#[global] Arguments attach_count : simpl never.
#[global] Arguments cleanup_count : simpl never.

End PlacementSpec.

(** ** Properties of the tooltip *)
Module TooltipSpec.
Import Tooltip.

(** A subscriber only touches the [cleanup] variable and the placement
    log. *)
Lemma tooltip_subscriber_frame (e : Elem) (w : State) :
  exists h log, subscriber e w = with_cleanup h (with_placementLog log w).
Proof.
  unfold subscriber, init, call_cleanup.
  destruct (open w); [destruct (tooltipElement w) as [tip|]|].
  - cbn. eexists; eexists. reflexivity.
  - exists (cleanup w), (Placement.invoke (cleanup w) (placementLog w)).
    destruct w; reflexivity.
  - exists (cleanup w), (Placement.invoke (cleanup w) (placementLog w)).
    destruct w; reflexivity.
Qed.

Lemma tooltip_subscribers_frame (l : list Elem) :
  forall w, exists h log,
    fold_left (fun acc e => subscriber e acc) l w
    = with_cleanup h (with_placementLog log w).
Proof.
  induction l as [|e l IH]; intros w; cbn [fold_left].
  - exists (cleanup w), (placementLog w). destruct w; reflexivity.
  - destruct (tooltip_subscriber_frame e w) as (h1 & l1 & ->).
    destruct (IH (with_cleanup h1 (with_placementLog l1 w))) as (h & log & ->).
    exists h, log. reflexivity.
Qed.

Lemma tooltip_notify_frame (w : State) :
  exists h log, notify w = with_cleanup h (with_placementLog log w).
Proof. apply tooltip_subscribers_frame. Qed.

(** [open$.set] leaves the clock, the timers, the mounted elements alone. *)
Lemma tooltip_open_set_frame (b : bool) (w : State) :
  exists h log,
    open_set b w
    = with_cleanup h (with_placementLog log
        (with_open b (with_openChanges (openChanges w ++ [b]) w))).
Proof.
  unfold open_set.
  destruct (Bool.eqb (open w) b) eqn:E.
  - apply Bool.eqb_prop in E. subst b.
    exists (cleanup w), (placementLog w). destruct w; reflexivity.
  - apply tooltip_notify_frame.
Qed.

(** The subscription callback, run while the combined condition holds,
    leaves the cleanup of a fresh attachment in the variable. *)
Lemma tooltip_subscriber_attaches (e : Elem) (w : State) :
  attached_condition w = true ->
  cleanup (subscriber e w)
  = Placement.Placed (Placement.attach_count (placementLog (subscriber e w))).
Proof.
  unfold attached_condition, subscriber. intros H.
  apply andb_prop in H. destruct H as [Ho Ht]. rewrite Ho.
  destruct (tooltipElement w) as [tip|]; [|discriminate].
  unfold init, call_cleanup. cbn.
  rewrite PlacementSpec.attach_count_app, PlacementSpec.attach_count_invoke.
  f_equal. change (Placement.attach_count [Placement.Attach (S (Placement.attach_count (placementLog w))) e tip]) with 1.
  lia.
Qed.

Lemma tooltip_notify_current (w : State) : attachment_current (notify w).
Proof.
  unfold attachment_current. intros Hc Ht.
  destruct (tooltip_notify_frame w) as (h & log & E).
  assert (Hc' : attached_condition w = true) by (rewrite E in Hc; exact Hc).
  assert (Ht' : triggers w <> []) by (rewrite E in Ht; exact Ht).
  clear E h log Hc Ht. unfold notify.
  destruct (exists_last Ht') as (l & e & ->).
  rewrite fold_left_app. cbn [fold_left].
  apply tooltip_subscriber_attaches.
  destruct (tooltip_subscribers_frame l w) as (h & log & ->). exact Hc'.
Qed.

Lemma tooltip_open_set_current (b : bool) (w : State) :
  attachment_current w -> attachment_current (open_set b w).
Proof.
  intros H. unfold open_set.
  destruct (Bool.eqb (open w) b); [exact H|apply tooltip_notify_current].
Qed.

Lemma tooltipElement_set_current (x : option Elem) (w : State) :
  attachment_current w -> attachment_current (tooltipElement_set x w).
Proof.
  intros H. unfold tooltipElement_set.
  destruct x; [apply tooltip_notify_current|].
  destruct (tooltipElement w); [apply tooltip_notify_current|exact H].
Qed.

(** The state after [n] open/close toggles of a freshly mounted, closed
    tooltip. *)
Lemma tooltip_toggles_state (e t : Elem) (w : State) :
  open w = false ->
  tooltipElement w = Some t ->
  triggers w = [e] ->
  cleanup w = Placement.Noop ->
  placementLog w = [] ->
  forall n,
    let w' := iter n open_close w in
    open w' = false /\
    tooltipElement w' = Some t /\
    triggers w' = [e] /\
    cleanup w' = match n with O => Placement.Noop | S _ => Placement.Placed n end /\
    placementLog w' = toggles_log e t n.
Proof.
  intros Ho Ht Htr Hc Hl n. induction n as [|k IH]; cbn zeta.
  - cbn. repeat split; assumption.
  - cbn [iter]. cbn zeta in IH. destruct IH as (A & B & C & D & E).
    pose proof (PlacementSpec.toggles_log_attaches e t k) as Hcount.
    rewrite <- E in Hcount.
    destruct (iter k open_close w) as [nw od op cl st ht te tr ov pl oc].
    cbn in A, B, C, D, E, Hcount. subst op te tr cl.
    unfold open_close, toggle, open_update, open_set, notify. cbn.
    unfold subscriber, init, call_cleanup. cbn.
    rewrite PlacementSpec.attach_count_invoke, Hcount.
    repeat split.
    rewrite E. destruct k; cbn; rewrite <- ?app_assoc; reflexivity.
Qed.

Section WithPolicy.

Variable policy : Timeout.StartPolicy.

(** With no show pending, passing time can only run the hide action. *)
Lemma elapse_without_show (ms : nat) (w : State) :
  Timeout.scheduled (showTimer w) = None ->
  elapse ms w = with_now (now w + ms) (fireHideTimer (now w + ms) w).
Proof.
  intros Hs. unfold elapse, Timeout.fires_first, fireShowTimer, Timeout.due.
  rewrite Hs. reflexivity.
Qed.

Lemma elapse_quiet (ms : nat) (w : State) :
  Timeout.scheduled (showTimer w) = None ->
  Timeout.scheduled (showTimer (elapse ms w)) = None /\
  exists l, openChanges (elapse ms w) = openChanges w ++ l /\ Forall (eq false) l.
Proof.
  intros Hs. rewrite (elapse_without_show ms w Hs).
  unfold fireHideTimer.
  destruct (Timeout.due (now w + ms) (hideTimer w)).
  - destruct (tooltip_open_set_frame false (stopHideTimer w)) as (h & log & ->).
    cbn. split; [exact Hs|]. exists [false]. split; [reflexivity|].
    constructor; [reflexivity|constructor].
  - cbn. split; [exact Hs|]. exists []. rewrite app_nil_r. split; [reflexivity|constructor].
Qed.

Lemma elapses_quiet (ms : list nat) :
  forall w,
    Timeout.scheduled (showTimer w) = None ->
    exists l, openChanges (tooltip_elapses policy ms w) = openChanges w ++ l
              /\ Forall (eq false) l.
Proof.
  unfold tooltip_elapses, run.
  induction ms as [|m ms IH]; intros w Hs; cbn [map fold_left step].
  - exists []. rewrite app_nil_r. split; [reflexivity|constructor].
  - destruct (elapse_quiet m w Hs) as (Hs' & l1 & E1 & F1).
    destruct (IH (elapse m w) Hs') as (l2 & E2 & F2).
    exists (l1 ++ l2). rewrite E2, E1, app_assoc. split; [reflexivity|].
    apply Forall_app; split; assumption.
Qed.

(** Before the show timer is due, and with no hide pending, passing time
    changes nothing but the clock. *)
Lemma elapse_early (ms due : nat) (w : State) :
  Timeout.scheduled (showTimer w) = Some due ->
  Timeout.scheduled (hideTimer w) = None ->
  now w + ms < due ->
  elapse ms w = with_now (now w + ms) w.
Proof.
  intros Hs Hh Hlt.
  unfold elapse, Timeout.fires_first, fireShowTimer, fireHideTimer, Timeout.due.
  rewrite Hs, Hh.
  destruct (Nat.leb_spec due (now w + ms)); [lia|].
  cbn. rewrite ?Hh. reflexivity.
Qed.

Lemma elapses_early (ms : list nat) :
  forall (due : nat) (w : State),
    Timeout.scheduled (showTimer w) = Some due ->
    Timeout.scheduled (hideTimer w) = None ->
    (ms = [] \/ now w + list_sum ms < due) ->
    tooltip_elapses policy ms w = with_now (now w + list_sum ms) w.
Proof.
  unfold tooltip_elapses, run.
  induction ms as [|m ms IH]; intros due w Hs Hh Hlt; cbn [map fold_left step].
  - cbn. rewrite Nat.add_0_r. destruct w; reflexivity.
  - destruct Hlt as [Hnil|Hlt]; [discriminate|].
    change (list_sum (m :: ms)) with (m + list_sum ms) in *.
    rewrite (elapse_early m due w Hs Hh) by lia.
    rewrite (IH due (with_now (now w + m) w)); cbn; try assumption.
    + rewrite Nat.add_assoc. reflexivity.
    + right. lia.
Qed.

Lemma tooltipElement_set_frame (x : option Elem) (w : State) :
  exists h log y,
    tooltipElement_set x w
    = with_cleanup h (with_placementLog log (with_tooltipElement y w)).
Proof.
  unfold tooltipElement_set.
  destruct x as [e|]; [|destruct (tooltipElement w) as [t|] eqn:E].
  - destruct (tooltip_notify_frame (with_tooltipElement (Some e) w)) as (h & log & ->).
    exists h, log, (Some e). reflexivity.
  - destruct (tooltip_notify_frame (with_tooltipElement None w)) as (h & log & ->).
    exists h, log, None. reflexivity.
  - exists (cleanup w), (placementLog w), None. destruct w; cbn in *; subst; reflexivity.
Qed.

Lemma show_wf config d w : timers_wf config w -> timers_wf config (show policy d w).
Proof.
  intros (H1 & H2 & H3). unfold timers_wf, show; cbn.
  repeat split; try assumption. intros ? [=].
Qed.

Lemma hide_wf config w : timers_wf config w -> timers_wf config (hide policy w).
Proof.
  intros (H1 & H2 & H3). unfold timers_wf, hide; cbn.
  unfold Timeout.start.
  destruct policy; [|destruct (Timeout.scheduled (hideTimer w)) as [d0|] eqn:E];
    cbn; repeat split; try assumption.
  - intros d [= <-]. lia.
  - rewrite E. intros d [= <-]. apply H2; reflexivity.
  - intros d [= <-]. lia.
Qed.

Lemma open_set_wf config b w : timers_wf config w -> timers_wf config (open_set b w).
Proof.
  intros H. destruct (tooltip_open_set_frame b w) as (h & log & ->). exact H.
Qed.

Lemma elapse_wf config ms w : timers_wf config w -> timers_wf config (elapse ms w).
Proof.
  intros H.
  assert (Hstop : forall x, timers_wf config x -> timers_wf config (stopHideTimer x)).
  { intros x (A & B & C). unfold timers_wf; cbn. repeat split; auto. intros ? [=]. }
  assert (Hstop' : forall x, timers_wf config x -> timers_wf config (stopShowTimer x)).
  { intros x (A & B & C). unfold timers_wf; cbn. repeat split; auto. }
  assert (Hfs : forall t x, timers_wf config x -> timers_wf config (fireShowTimer t x)).
  { intros t x Hx. unfold fireShowTimer. destruct (Timeout.due t (showTimer x)); auto.
    apply open_set_wf; auto. }
  assert (Hfh : forall t x, timers_wf config x -> timers_wf config (fireHideTimer t x)).
  { intros t x Hx. unfold fireHideTimer. destruct (Timeout.due t (hideTimer x)); auto.
    apply open_set_wf; auto. }
  assert (Hnow : forall x, timers_wf config x -> timers_wf config (with_now (now x + ms) x)).
  { intros x (A & B & C). unfold timers_wf; cbn. repeat split; auto.
    intros d Hd. specialize (B d Hd). lia. }
  unfold elapse.
  destruct (Timeout.fires_first (showTimer w) (hideTimer w)).
  - pose proof (Hfh (now w + ms) _ (Hfs (now w + ms) _ H)) as (A & B & C).
    unfold timers_wf; cbn. repeat split; auto.
    intros d Hd. specialize (B d Hd).
    destruct (tooltip_open_set_frame true (stopShowTimer w)) as (h & log & E).
    unfold fireHideTimer, fireShowTimer in B.
    revert B.
    repeat match goal with
    | |- context [if ?c then _ else _] => destruct c
    | |- context [open_set ?b ?x] =>
        let h := fresh "h" in let l := fresh "l" in let E := fresh "E" in
        destruct (tooltip_open_set_frame b x) as (h & l & E); rewrite E; clear E
    end; cbn; lia.
  - pose proof (Hfs (now w + ms) _ (Hfh (now w + ms) _ H)) as (A & B & C).
    unfold timers_wf; cbn. repeat split; auto.
    intros d Hd. specialize (B d Hd).
    unfold fireHideTimer, fireShowTimer in B.
    revert B.
    repeat match goal with
    | |- context [if ?c then _ else _] => destruct c
    | |- context [open_set ?b ?x] =>
        let h := fresh "h" in let l := fresh "l" in let E := fresh "E" in
        destruct (tooltip_open_set_frame b x) as (h & l & E); rewrite E; clear E
    end; cbn; lia.
Qed.

Lemma step_wf config ev w : timers_wf config w -> timers_wf config (step policy ev w).
Proof.
  intros H. destruct ev as [e|e|e|e|e ty|d| | |b|ms]; cbn [step].
  - unfold useTooltipTrigger.
    destruct (tooltip_subscriber_frame e (with_triggers (triggers w ++ [e]) w)) as (h & log & ->).
    exact H.
  - unfold destroyTrigger. apply hide_wf. exact H.
  - unfold useTooltip.
    destruct (tooltipElement_set_frame (Some e) w) as (h & log & y & ->). exact H.
  - unfold destroyTooltip.
    destruct (tooltipElement_set_frame None
                (with_overlays (remove_first e (overlays w)) w)) as (h & log & y & ->).
    exact H.
  - unfold dispatch.
    apply iter_preserves.
    + intros a Ha. destruct ty; cbn; auto using show_wf, hide_wf.
    + apply iter_preserves; [|exact H].
      intros a Ha. destruct ty; cbn; auto using show_wf, hide_wf.
  - apply show_wf; exact H.
  - apply hide_wf; exact H.
  - unfold toggle, open_update. apply open_set_wf; exact H.
  - apply open_set_wf; exact H.
  - apply elapse_wf; exact H.
Qed.

(** The two timers are mutually exclusive in every reachable state, so the
    order in which [elapse] runs two due invocations never matters. *)
Lemma step_exclusive (ev : Event) (w : State) :
  timers_exclusive w -> timers_exclusive (step policy ev w).
Proof.
  intros H.
  assert (Hfs : forall t x, timers_exclusive x -> timers_exclusive (fireShowTimer t x)).
  { intros t x Hx. unfold fireShowTimer. destruct (Timeout.due t (showTimer x)); [|exact Hx].
    destruct (tooltip_open_set_frame true (stopShowTimer x)) as (h & log & ->).
    left. reflexivity. }
  assert (Hfh : forall t x, timers_exclusive x -> timers_exclusive (fireHideTimer t x)).
  { intros t x Hx. unfold fireHideTimer. destruct (Timeout.due t (hideTimer x)); [|exact Hx].
    destruct (tooltip_open_set_frame false (stopHideTimer x)) as (h & log & ->).
    right. reflexivity. }
  destruct ev as [e|e|e|e|e ty|d| | |b|ms]; cbn [step].
  - unfold useTooltipTrigger.
    destruct (tooltip_subscriber_frame e (with_triggers (triggers w ++ [e]) w)) as (h & log & ->).
    exact H.
  - left. reflexivity.
  - unfold useTooltip.
    destruct (tooltipElement_set_frame (Some e) w) as (h & log & y & ->). exact H.
  - unfold destroyTooltip.
    destruct (tooltipElement_set_frame None
                (with_overlays (remove_first e (overlays w)) w)) as (h & log & y & ->).
    exact H.
  - unfold dispatch.
    apply iter_preserves.
    + intros a Ha. destruct ty; cbn [overlayListener]; try exact Ha.
      * right. reflexivity.
      * left. reflexivity.
    + apply iter_preserves; [|exact H].
      intros a Ha. destruct ty; cbn [triggerListener];
        first [right; reflexivity | left; reflexivity].
  - right. reflexivity.
  - left. reflexivity.
  - unfold toggle, open_update.
    destruct (tooltip_open_set_frame (negb (open w)) w) as (h & log & ->). exact H.
  - destruct (tooltip_open_set_frame b w) as (h & log & ->). exact H.
  - unfold elapse.
    destruct (Timeout.fires_first (showTimer w) (hideTimer w)).
    + exact (Hfh _ _ (Hfs _ _ H)).
    + exact (Hfs _ _ (Hfh _ _ H)).
Qed.

Lemma reachable_exclusive config w : reachable policy config w -> timers_exclusive w.
Proof.
  induction 1 as [|ev w Hr IH].
  - left. reflexivity.
  - apply step_exclusive; exact IH.
Qed.

Lemma reachable_wf config w : reachable policy config w -> timers_wf config w.
Proof.
  induction 1 as [|ev w Hr IH].
  - unfold timers_wf; cbn. repeat split; auto. intros ? [=].
  - apply step_wf; exact IH.
Qed.

(** With no hide pending, passing time can only run the show action. *)
Lemma elapse_without_hide (ms : nat) (w : State) :
  Timeout.scheduled (hideTimer w) = None ->
  elapse ms w = with_now (now w + ms) (fireShowTimer (now w + ms) w).
Proof.
  intros Hh. unfold elapse.
  assert (F : Timeout.fires_first (showTimer w) (hideTimer w) = true).
  { unfold Timeout.fires_first. rewrite Hh. destruct (Timeout.scheduled (showTimer w)); reflexivity. }
  rewrite F. f_equal.
  unfold fireHideTimer, fireShowTimer, Timeout.due.
  destruct (Timeout.scheduled (showTimer w)) as [d|]; [destruct (d <=? now w + ms)|].
  - destruct (tooltip_open_set_frame true (stopShowTimer w)) as (h & log & ->). cbn.
    rewrite Hh. reflexivity.
  - rewrite Hh. reflexivity.
  - rewrite Hh. reflexivity.
Qed.

(** C5: after every call to [show] the hide timer is not pending, and
    after every call to [hide] the show timer is not pending; time passing
    after [show] therefore commits no [false], and time passing after
    [hide] commits no [true]. *)
Theorem show_and_hide_cancel_each_other (delay : option nat) (ms : nat) (w : State) :
  Timeout.pending (hideTimer (show policy delay w)) = false /\
  Timeout.pending (showTimer (hide policy w)) = false /\
  (exists l, openChanges (elapse ms (show policy delay w)) = openChanges w ++ l
             /\ Forall (eq true) l) /\
  (exists l, openChanges (elapse ms (hide policy w)) = openChanges w ++ l
             /\ Forall (eq false) l).
Proof.
  split; [reflexivity|]. split; [reflexivity|]. split.
  - rewrite elapse_without_hide by reflexivity.
    unfold fireShowTimer.
    destruct (Timeout.due _ _).
    + destruct (tooltip_open_set_frame true (stopShowTimer (show policy delay w))) as (h & log & ->).
      exists [true]. cbn. split; [reflexivity|]. repeat constructor.
    + exists []. cbn. rewrite app_nil_r. split; [reflexivity|constructor].
  - destruct (elapse_quiet ms (hide policy w)) as (_ & l & E & F); [reflexivity|].
    exists l. split; [exact E|exact F].
Qed.

(** The show timer as [show] leaves it. *)
Lemma show_schedules (D : nat) (w : State) :
  policy = Timeout.Restart \/ Timeout.pending (showTimer w) = false ->
  Timeout.scheduled (showTimer (show policy (Some D) w)) = Some (now w + D).
Proof.
  intros H. unfold show; cbn. unfold Timeout.start, Timeout.pending in *. cbn.
  destruct H as [->|H]; [reflexivity|].
  destruct policy; [reflexivity|].
  destruct (Timeout.scheduled (showTimer w)); [discriminate|reflexivity].
Qed.

(** C4: [show(D)] commits nothing by itself, whatever [D]; and when
    [hide()] follows in the same turn, or after time has passed that adds
    up to less than [D] ms, no [true] is committed to OpenState however
    much time passes afterwards. *)
Theorem show_then_hide_never_opens (D : nat) (before after : list nat) (w : State) :
  policy = Timeout.Restart \/ Timeout.pending (showTimer w) = false ->
  before = [] \/ list_sum before < D ->
  let shown := show policy (Some D) w in
  open shown = open w /\
  openChanges shown = openChanges w /\
  Timeout.pending (showTimer shown) = true /\
  exists l,
    openChanges
      (tooltip_elapses policy after (hide policy (tooltip_elapses policy before shown)))
    = openChanges w ++ l
    /\ Forall (eq false) l.
Proof.
  intros Hp Hb shown.
  pose proof (show_schedules D w Hp) as Hs. fold shown in Hs.
  split; [reflexivity|]. split; [reflexivity|].
  split; [unfold Timeout.pending; rewrite Hs; reflexivity|].
  rewrite (elapses_early before (now w + D) shown Hs).
  - destruct (elapses_quiet after
                (hide policy (with_now (now shown + list_sum before) shown)))
      as (l & E & F); [reflexivity|].
    exists l. split; [exact E|exact F].
  - reflexivity.
  - destruct Hb as [Hb|Hb]; [left; exact Hb|right].
    change (now shown) with (now w). lia.
Qed.

(** C6: on a trigger carrying one [useTooltipTrigger] instance, focus runs
    [show] with delay 0 and pointerenter runs [show] with the configured
    [openDelay] (1000 when not configured), the hide timer being stopped
    before the show timer is started; pointerleave, blur and click run
    [hide], which stops the show timer and then starts the hide timer, whose
    delay is 500. *)
Theorem trigger_event_wiring (config : TooltipConfig) (e : Elem) (w : State) :
  reachable policy config w ->
  occurrences e (triggers w) = 1 ->
  occurrences e (overlays w) = 0 ->
  let configured := match cfg_openDelay config with Some d => d | None => 1000 end in
  let entered (d : nat) (w' : State) :=
    w' = startShowTimer policy (delayShowTimer_set d (stopHideTimer w)) /\
    Timeout.pending (hideTimer w') = false /\
    Timeout.pending (showTimer w') = true /\
    Timeout.delay (showTimer w') = d /\
    (policy = Timeout.Restart \/ Timeout.pending (showTimer w) = false ->
     Timeout.scheduled (showTimer w') = Some (now w + d)) in
  let left (w' : State) :=
    w' = startHideTimer policy (stopShowTimer w) /\
    Timeout.pending (showTimer w') = false /\
    Timeout.pending (hideTimer w') = true /\
    Timeout.delay (hideTimer w') = 500 /\
    (policy = Timeout.Restart \/ Timeout.pending (hideTimer w) = false ->
     Timeout.scheduled (hideTimer w') = Some (now w + 500)) in
  entered 0 (dispatch policy e Focus w) /\
  entered configured (dispatch policy e PointerEnter w) /\
  left (dispatch policy e PointerLeave w) /\
  left (dispatch policy e Blur w) /\
  left (dispatch policy e Click w) /\
  (cfg_openDelay config = None -> configured = 1000).
Proof.
  intros Hr Ht Ho configured entered left.
  destruct (reachable_wf _ _ Hr) as (Hd & _ & Hc).
  assert (Hsched : forall p tm n,
            Timeout.pending (Timeout.start p n tm) = true).
  { intros p tm n. unfold Timeout.start, Timeout.pending.
    destruct p; [reflexivity|].
    destruct (Timeout.scheduled tm) eqn:E; [rewrite E|]; reflexivity. }
  assert (Hfresh : forall tm n,
            policy = Timeout.Restart \/ Timeout.pending tm = false ->
            Timeout.scheduled (Timeout.start policy n tm) = Some (n + Timeout.delay tm)).
  { intros tm n [->|H]; [reflexivity|].
    unfold Timeout.start, Timeout.pending in *.
    destruct policy; [reflexivity|].
    destruct (Timeout.scheduled tm); [discriminate|reflexivity]. }
  assert (Hdel : forall p tm n, Timeout.delay (Timeout.start p n tm) = Timeout.delay tm).
  { intros p tm n. unfold Timeout.start.
    destruct p; [reflexivity|]. destruct (Timeout.scheduled tm); reflexivity. }
  assert (Henter : forall d, entered d (show policy (Some d) w)).
  { intros d. unfold entered, show. cbn.
    repeat split.
    - apply Hsched.
    - apply Hdel.
    - intros H. rewrite Hfresh; [reflexivity|].
      destruct H as [H|H]; [left; exact H|right; exact H]. }
  assert (Hleft : left (hide policy w)).
  { unfold left, hide. cbn.
    repeat split.
    - apply Hsched.
    - rewrite Hdel. exact Hd.
    - intros H. rewrite Hfresh; [rewrite Hd; reflexivity|].
      destruct H as [H|H]; [left; exact H|right; exact H]. }
  unfold dispatch. rewrite Ht, Ho. cbn [iter triggerListener].
  split; [exact (Henter 0)|].
  split; [rewrite Hc; exact (Henter configured)|].
  split; [exact Hleft|]. split; [exact Hleft|]. split; [exact Hleft|].
  intros E. unfold configured. rewrite E. reflexivity.
Qed.

(** C1 (as the code has it): the [destroy] returned by
    [useTooltipTrigger] calls the stored cleanup, removes the trigger's
    listeners and its subscription, stops the show timer and, through
    [hide()], leaves the hide timer pending.  It commits nothing itself,
    and no timer commits [true] afterwards; the hide timer runs within
    500 ms and commits [false]. *)
Theorem destroy_trigger_starts_hide_timer (config : TooltipConfig) (e : Elem) (w : State) :
  reachable policy config w ->
  let w' := destroyTrigger policy e w in
  placementLog w' = Placement.invoke (cleanup w) (placementLog w) /\
  cleanup w' = cleanup w /\
  triggers w' = remove_first e (triggers w) /\
  open w' = open w /\
  openChanges w' = openChanges w /\
  Timeout.pending (showTimer w') = false /\
  Timeout.pending (hideTimer w') = true /\
  (forall ms, 500 <= ms ->
     openChanges (elapse ms w') = openChanges w ++ [false] /\
     open (elapse ms w') = false) /\
  (forall later, exists l,
     openChanges (tooltip_elapses policy later w') = openChanges w ++ l /\
     Forall (eq false) l).
Proof.
  intros Hr w'.
  destruct (reachable_wf _ _ Hr) as (Hd & Hdue & _).
  assert (Hpend : exists d, Timeout.scheduled (hideTimer w') = Some d /\ d <= now w + 500).
  { unfold w', destroyTrigger, hide. cbn. unfold Timeout.start.
    destruct policy.
    - eexists; split; [reflexivity|]. rewrite Hd. lia.
    - destruct (Timeout.scheduled (hideTimer w)) as [d|] eqn:E.
      + exists d. split; [first [exact E | reflexivity]|]. apply Hdue; reflexivity.
      + eexists; split; [reflexivity|]. rewrite Hd. lia. }
  destruct Hpend as (d & Hsch & Hle).
  repeat split; try reflexivity.
  - unfold Timeout.pending. rewrite Hsch. reflexivity.
  - rewrite elapse_without_show by reflexivity.
    unfold fireHideTimer, Timeout.due. rewrite Hsch.
    change (now w') with (now w).
    destruct (Nat.leb_spec d (now w + ms)); [|lia].
    destruct (tooltip_open_set_frame false (stopHideTimer w')) as (h & log & ->). reflexivity.
  - rewrite elapse_without_show by reflexivity.
    unfold fireHideTimer, Timeout.due. rewrite Hsch.
    change (now w') with (now w).
    destruct (Nat.leb_spec d (now w + ms)); [|lia].
    destruct (tooltip_open_set_frame false (stopHideTimer w')) as (h & log & ->). reflexivity.
  - intros later. apply (elapses_quiet later w'). reflexivity.
Qed.

Lemma tooltip_step_current (ev : Event) (w : State) :
  attachment_current w -> attachment_current (step policy ev w).
Proof.
  intros H.
  assert (Hshow : forall d x, attachment_current x -> attachment_current (show policy d x)).
  { intros d x Hx. exact Hx. }
  assert (Hhide : forall x, attachment_current x -> attachment_current (hide policy x)).
  { intros x Hx. exact Hx. }
  destruct ev as [e|e|e|e|e ty|d| | |b|ms]; cbn [step].
  - unfold useTooltipTrigger, attachment_current. intros Hc _.
    destruct (tooltip_subscriber_frame e (with_triggers (triggers w ++ [e]) w)) as (h & log & E).
    apply tooltip_subscriber_attaches. rewrite E in Hc. exact Hc.
  - unfold destroyTrigger. apply Hhide.
    unfold attachment_current, attached_condition in *. cbn.
    intros Hc Ht. rewrite PlacementSpec.attach_count_invoke.
    apply H; [exact Hc|]. eapply remove_first_nonempty; exact Ht.
  - unfold useTooltip.
    pose proof (tooltipElement_set_current (Some e) w H) as H'.
    exact H'.
  - unfold destroyTooltip. apply tooltipElement_set_current. exact H.
  - unfold dispatch.
    apply iter_preserves.
    + intros a Ha. destruct ty; cbn; auto.
    + apply iter_preserves; [|exact H].
      intros a Ha. destruct ty; cbn; auto.
  - apply Hshow; exact H.
  - apply Hhide; exact H.
  - unfold toggle, open_update. apply tooltip_open_set_current; exact H.
  - apply tooltip_open_set_current; exact H.
  - unfold elapse, fireHideTimer, fireShowTimer.
    repeat match goal with
    | |- context [if ?c then _ else _] => destruct c
    end;
    repeat first [ exact H | apply tooltip_open_set_current | progress (change (attachment_current ?x) with (attachment_current x)) ];
    try exact H.
Qed.

Lemma tooltip_reachable_current config w : reachable policy config w -> attachment_current w.
Proof.
  induction 1 as [|ev w Hr IH].
  - unfold attachment_current, attached_condition. cbn.
    rewrite andb_false_r. discriminate.
  - apply tooltip_step_current; exact IH.
Qed.

End WithPolicy.

(** A pointer that enters and leaves within 50 ms, with the default delay
    of 1000 ms. *)
Lemma show_then_hide_never_opens_witness :
  let w := tooltip_mounted Timeout.Restart in
  (Timeout.Restart = Timeout.Restart \/ Timeout.pending (showTimer w) = false) /\
  ([50] = [] \/ list_sum [50] < 1000) /\
  exists l,
    openChanges
      (tooltip_elapses Timeout.Restart [600]
         (hide Timeout.Restart
            (tooltip_elapses Timeout.Restart [50]
               (show Timeout.Restart (Some 1000) w))))
    = openChanges w ++ l
    /\ Forall (eq false) l.
Proof.
  intros w.
  assert (H1 : Timeout.Restart = Timeout.Restart \/ Timeout.pending (showTimer w) = false)
    by (left; reflexivity).
  assert (H2 : [50] = [] \/ list_sum [50] < 1000) by (right; cbn; lia).
  split; [exact H1|]. split; [exact H2|].
  exact (proj2 (proj2 (proj2
           (show_then_hide_never_opens Timeout.Restart 1000 [50] [600] w H1 H2)))).
Defined.

Lemma trigger_event_wiring_witness :
  let w := tooltip_mounted Timeout.Restart in
  reachable Timeout.Restart (mkConfig None None) w /\
  occurrences 1 (triggers w) = 1 /\
  occurrences 1 (overlays w) = 0 /\
  Timeout.scheduled (showTimer (dispatch Timeout.Restart 1 PointerEnter w)) = Some 1000 /\
  Timeout.scheduled (hideTimer (dispatch Timeout.Restart 1 PointerLeave w)) = Some 500.
Proof.
  intros w.
  assert (Hr : reachable Timeout.Restart (mkConfig None None) w).
  { unfold w, tooltip_mounted, run. cbn [fold_left].
    apply reach_step. apply reach_step. apply reach_create. }
  assert (H1 : occurrences 1 (triggers w) = 1) by reflexivity.
  assert (H2 : occurrences 1 (overlays w) = 0) by reflexivity.
  split; [exact Hr|]. split; [exact H1|]. split; [exact H2|].
  pose proof (trigger_event_wiring Timeout.Restart (mkConfig None None) 1 w Hr H1 H2) as T.
  cbv zeta in T.
  destruct T as (_ & (_ & _ & _ & _ & Tenter) & (_ & _ & _ & _ & Tleave) & _).
  split.
  - exact (Tenter (or_introl eq_refl)).
  - exact (Tleave (or_introl eq_refl)).
Defined.

Lemma destroy_trigger_starts_hide_timer_witness :
  let w := tooltip_opened Timeout.Restart in
  reachable Timeout.Restart (mkConfig None None) w /\
  Timeout.pending (hideTimer (destroyTrigger Timeout.Restart 1 w)) = true /\
  openChanges (elapse 500 (destroyTrigger Timeout.Restart 1 w)) = openChanges w ++ [false].
Proof.
  intros w.
  assert (Hr : reachable Timeout.Restart (mkConfig None None) w).
  { unfold w, tooltip_opened, tooltip_mounted, run. cbn [fold_left].
    do 4 apply reach_step. apply reach_create. }
  split; [exact Hr|].
  pose proof (destroy_trigger_starts_hide_timer Timeout.Restart (mkConfig None None) 1 w Hr) as T.
  cbv zeta in T.
  destruct T as (_ & _ & _ & _ & _ & _ & Tp & Tf & _).
  split; [exact Tp|].
  exact (proj1 (Tf 500 (le_n 500))).
Defined.

(** C1, counterexample: with trigger and overlay mounted and the tooltip
    open, the teardown of the trigger leaves the hide timer pending, and
    500 ms after it has returned that timer's action commits OpenState. *)
Lemma destroy_trigger_leaves_timer_running :
  let w := tooltip_opened Timeout.Restart in
  let w' := destroyTrigger Timeout.Restart 1 w in
  open w = true /\
  Timeout.pending (hideTimer w') <> false /\
  openChanges w' = [true] /\
  openChanges (elapse 500 w') = [true; false] /\
  open (elapse 500 w') = false.
Proof.
  cbv zeta. split; [reflexivity|]. split; [discriminate|].
  split; [reflexivity|]. split; reflexivity.
Qed.

End TooltipSpec.

(** ** Properties of the menu *)
Module MenuSpec.
Import Menu.

Ltac expose_state :=
  unfold with_open, with_cleanup, with_overlayElement, with_items, with_keyManager,
    with_triggers, with_overlays, with_doc, with_awaiting, with_placementLog,
    with_focusLog, with_openChangeLog;
  cbn.

(** Symbolic execution of the menu's functions on a state whose shape is
    known. *)
Ltac menu_compute :=
  repeat progress
    (cbv beta iota zeta delta
       [useTrigger_handleKeyDown openMenuWithArrow open_set open_update toggle hide effect
        notify subscriber setupPlacement items_set call_cleanup setActiveItem_none
        useMenu useTrigger overlayElement_set tick resume setFirstItemActive
        setLastItemActive activate_first_of onActivate focus focusTrigger
        keyManager_destroy destroyTrigger destroyMenu open_close lifecycle
        attached_condition
        Placement.getPlacement Placement.invoke fold_left negb Bool.eqb andb
        with_open with_cleanup with_overlayElement with_items with_keyManager
        with_triggers with_overlays with_doc with_awaiting with_placementLog
        with_focusLog with_openChangeLog
        open cleanup overlayElement items keyManager triggers overlays doc
        awaiting placementLog focusLog openChangeLog
        km_items km_active km_subscribed];
     cbn [app]).

Lemma lifecycle_current (w1 w2 : State) :
  lifecycle w1 = lifecycle w2 -> attachment_current w1 -> attachment_current w2.
Proof.
  unfold lifecycle, attachment_current, attached_condition.
  intros [= <- <- <- <- <-]. exact (fun H => H).
Qed.

(** A subscriber touches the [cleanup] variable, the placement log, the
    [items] store and the key manager, nothing else. *)
Lemma menu_subscriber_frame (e : Elem) (w : State) :
  exists h log its km,
    subscriber e w
    = with_cleanup h (with_placementLog log (with_items its (with_keyManager km w))).
Proof.
  unfold subscriber, setupPlacement, items_set, call_cleanup, setActiveItem_none.
  destruct w as [op cl oe its km tr ov d aw pl fl ocl]. cbn.
  destruct op; [destruct oe as [o|]|].
  - cbn. destruct (km_subscribed km); do 4 eexists; expose_state; reflexivity.
  - do 4 eexists; expose_state; reflexivity.
  - do 4 eexists; expose_state; reflexivity.
Qed.

Lemma menu_subscribers_frame (l : list Elem) :
  forall w, exists h log its km,
    fold_left (fun acc e => subscriber e acc) l w
    = with_cleanup h (with_placementLog log (with_items its (with_keyManager km w))).
Proof.
  induction l as [|e l IH]; intros w; cbn [fold_left].
  - exists (cleanup w), (placementLog w), (items w), (keyManager w).
    destruct w; reflexivity.
  - destruct (menu_subscriber_frame e w) as (h1 & l1 & i1 & k1 & ->).
    destruct (IH (with_cleanup h1 (with_placementLog l1 (with_items i1 (with_keyManager k1 w)))))
      as (h & log & its & km & ->).
    exists h, log, its, km. reflexivity.
Qed.

Lemma menu_notify_frame (w : State) :
  exists h log its km,
    notify w
    = with_cleanup h (with_placementLog log (with_items its (with_keyManager km w))).
Proof. apply menu_subscribers_frame. Qed.

(** [open$.set] does not call [focus], does not touch the document, the
    mounted elements or the overlay store. *)
Lemma menu_open_set_frame (b : bool) (w : State) :
  exists h log its km aw ocl,
    open_set b w
    = with_cleanup h (with_placementLog log (with_items its (with_keyManager km
        (with_open b (with_awaiting aw (with_openChangeLog ocl w)))))).
Proof.
  unfold open_set.
  assert (He : exists aw ocl, effect b w = with_awaiting aw (with_openChangeLog ocl w)).
  { unfold effect. destruct w. destruct b; do 2 eexists; expose_state; reflexivity. }
  destruct He as (aw & ocl & ->).
  destruct (Bool.eqb (open w) b) eqn:E.
  - apply Bool.eqb_prop in E. subst b.
    exists (cleanup w), (placementLog w), (items w), (keyManager w), aw, ocl.
    destruct w; reflexivity.
  - destruct (menu_notify_frame (with_open b (with_awaiting aw (with_openChangeLog ocl w))))
      as (h & log & its & km & ->).
    exists h, log, its, km, aw, ocl. reflexivity.
Qed.

(** The two descriptions of the scan agree. *)
Lemma first_eligible_first (d : Document) (item : Elem) (l : list Elem) :
  first_not_skipped d item l -> first_eligible d l = Some item.
Proof.
  intros (l1 & l2 & -> & Hi & Hs). unfold first_eligible.
  induction l1 as [|x l1 IH]; cbn.
  - rewrite Hi. reflexivity.
  - rewrite (Hs x (or_introl eq_refl)). cbn. apply IH.
    intros y Hy. apply Hs. right. exact Hy.
Qed.

Lemma first_eligible_last (d : Document) (item : Elem) (l : list Elem) :
  last_not_skipped d item l -> first_eligible d (rev l) = Some item.
Proof.
  intros (l1 & l2 & -> & Hi & Hs).
  apply first_eligible_first.
  exists (rev l2), (rev l1). split; [|split].
  - rewrite rev_app_distr. cbn. rewrite <- app_assoc. reflexivity.
  - exact Hi.
  - intros x Hx. apply Hs. apply in_rev. exact Hx.
Qed.

#[local] Arguments first_eligible : simpl never.
#[local] Arguments getMenuItems : simpl never.

(** The subscription callback, run while the combined condition holds,
    leaves the cleanup of a fresh attachment in the variable. *)
Lemma menu_subscriber_attaches (e : Elem) (w : State) :
  attached_condition w = true ->
  cleanup (subscriber e w)
  = Placement.Placed (Placement.attach_count (placementLog (subscriber e w))).
Proof.
  unfold attached_condition. intros H.
  apply andb_prop in H. destruct H as [Ho Ht].
  destruct w as [op cl oe its km tr ov d aw pl fl ocl]. cbn in Ho, Ht. subst op.
  destruct oe as [o|]; [|discriminate].
  destruct km as [ki ka [|]]; destruct cl; menu_compute;
    rewrite ?PlacementSpec.attach_count_snoc_attach,
      ?PlacementSpec.attach_count_snoc_cleanup;
    reflexivity.
Qed.

Lemma menu_notify_current (w : State) : attachment_current (notify w).
Proof.
  unfold attachment_current. intros Hc Ht.
  destruct (menu_notify_frame w) as (h & log & its & km & E).
  assert (Hc' : attached_condition w = true) by (rewrite E in Hc; exact Hc).
  assert (Ht' : triggers w <> []) by (rewrite E in Ht; exact Ht).
  clear E h log its km Hc Ht. unfold notify.
  destruct (exists_last Ht') as (l & e & ->).
  rewrite fold_left_app. cbn [fold_left].
  apply menu_subscriber_attaches.
  destruct (menu_subscribers_frame l w) as (h & log & its & km & ->). exact Hc'.
Qed.

Lemma effect_lifecycle (b : bool) (w : State) : lifecycle (effect b w) = lifecycle w.
Proof. destruct b; reflexivity. Qed.

Lemma menu_open_set_current (b : bool) (w : State) :
  attachment_current w -> attachment_current (open_set b w).
Proof.
  intros H. unfold open_set.
  destruct (Bool.eqb (open w) b); [|apply menu_notify_current].
  apply (lifecycle_current w); [|exact H].
  symmetry. apply effect_lifecycle.
Qed.

Lemma overlayElement_set_current (x : option Elem) (w : State) :
  attachment_current w -> attachment_current (overlayElement_set x w).
Proof.
  intros H. unfold overlayElement_set.
  destruct x; [apply menu_notify_current|].
  destruct (overlayElement w); [apply menu_notify_current|exact H].
Qed.

Lemma hide_current (returnFocus : bool) (w : State) :
  attachment_current w -> attachment_current (hide returnFocus w).
Proof.
  intros H. unfold hide.
  pose proof (menu_open_set_current false w H) as H'.
  destruct returnFocus; [|exact H'].
  unfold focusTrigger. destruct (byId (doc (open_set false w))); exact H'.
Qed.

Lemma toggle_current (w : State) :
  attachment_current w -> attachment_current (toggle w).
Proof. intros H. apply menu_open_set_current. exact H. Qed.

Lemma useTrigger_handleKeyDown_current (key : Key) (w : State) :
  attachment_current w -> attachment_current (useTrigger_handleKeyDown key w).
Proof.
  intros H.
  destruct key; cbn [useTrigger_handleKeyDown];
    auto using toggle_current, hide_current.
  - exact (menu_open_set_current true w H).
  - exact (menu_open_set_current true w H).
Qed.

Lemma activate_first_of_lifecycle (candidates : list Elem) (w : State) :
  lifecycle (activate_first_of candidates w) = lifecycle w.
Proof.
  unfold activate_first_of. destruct (first_eligible (doc w) candidates); reflexivity.
Qed.

Lemma resume_current (k : Continuation) (w : State) :
  attachment_current w -> attachment_current (resume k w).
Proof.
  intros H. apply (lifecycle_current w); [|exact H].
  destruct k as [|key]; cbn [resume].
  - destruct (overlayElement w); reflexivity.
  - unfold setFirstItemActive, setLastItemActive.
    destruct key; symmetry; apply activate_first_of_lifecycle.
Qed.

Lemma fold_preserves {A B : Type} (P : A -> Prop) (f : A -> B -> A) :
  (forall a b, P a -> P (f a b)) -> forall l a, P a -> P (fold_left f l a).
Proof.
  intros Hf l. induction l as [|b l IH]; intros a Ha; cbn; [exact Ha|].
  apply IH. apply Hf. exact Ha.
Qed.

(** The state after [n] open/close toggles of a freshly mounted, closed
    menu. *)
Lemma menu_toggles_state (e o : Elem) (w : State) :
  open w = false ->
  overlayElement w = Some o ->
  triggers w = [e] ->
  cleanup w = Placement.Noop ->
  placementLog w = [] ->
  forall n,
    let w' := iter n open_close w in
    open w' = false /\
    overlayElement w' = Some o /\
    triggers w' = [e] /\
    cleanup w' = match n with O => Placement.Noop | S _ => Placement.Placed n end /\
    placementLog w' = toggles_log e o n.
Proof.
  intros Ho Hov Htr Hc Hl n. induction n as [|k IH]; cbn zeta.
  - cbn. repeat split; assumption.
  - cbn [iter]. cbn zeta in IH. destruct IH as (A & B & C & D & E).
    pose proof (PlacementSpec.toggles_log_attaches e o k) as Hcount.
    rewrite <- E in Hcount.
    destruct (iter k open_close w) as [op cl oe its km tr ov d aw pl fl ocl].
    cbn in A, B, C, D, E, Hcount. subst op oe tr cl.
    destruct km as [ki ka [|]];
      unfold open_close, toggle, open_update, open_set, effect, notify; cbn;
      unfold subscriber, setupPlacement, items_set, call_cleanup, setActiveItem_none; cbn;
      rewrite PlacementSpec.attach_count_invoke, Hcount;
      repeat split;
      rewrite E; destruct k; cbn; rewrite <- ?app_assoc; reflexivity.
Qed.

Section WithKeyManager.

Variable onKeydown : Key -> Document -> KeyManager -> KeyManager * list ManagerCall.

Lemma menu_step_current (ev : Event) (w : State) :
  attachment_current w -> attachment_current (step onKeydown ev w).
Proof.
  intros H.
  destruct ev as [e|e|e|e|e|e key|e key|e target|e target prevented|b|d| ]; cbn [step].
  - unfold useTrigger, attachment_current. intros Hc _.
    destruct (menu_subscriber_frame e (with_triggers (triggers w ++ [e]) w))
      as (h & log & its & km & E).
    apply menu_subscriber_attaches. rewrite E in Hc. exact Hc.
  - unfold destroyTrigger. apply hide_current.
    unfold attachment_current, attached_condition in *. cbn.
    intros Hc Ht. rewrite PlacementSpec.attach_count_invoke.
    apply H; [exact Hc|]. eapply remove_first_nonempty; exact Ht.
  - unfold useMenu.
    exact (overlayElement_set_current (Some e) w H).
  - unfold destroyMenu. apply overlayElement_set_current. exact H.
  - apply iter_preserves; [apply toggle_current|exact H].
  - apply iter_preserves; [apply useTrigger_handleKeyDown_current|exact H].
  - apply iter_preserves; [|exact H].
    intros a Ha. unfold useMenu_handleKeyDown.
    assert (Hother : attachment_current
              (let (km, calls) := onKeydown key (doc a) (keyManager a) in
               fold_left (fun acc c => managerCall c acc) calls (with_keyManager km a))).
    { destruct (onKeydown key (doc a) (keyManager a)) as [km calls].
      apply fold_preserves; [|exact Ha].
      intros x c Hx. destruct c; cbn [managerCall]; [exact Hx|].
      apply hide_current; exact Hx. }
    destruct key; try exact Hother. apply hide_current; exact Ha.
  - apply iter_preserves; [|exact H].
    intros a Ha. unfold overlayPointerOver.
    destruct (km_active (keyManager a)); [|exact Ha].
    destruct (roleMenuitem (doc a) target); [|exact Ha].
    unfold setActiveItem. destruct (existsb _ _); exact Ha.
  - apply iter_preserves; [|exact H].
    intros a Ha. unfold clickOutside.
    destruct (open a && negb prevented && negb _); [|exact Ha].
    apply hide_current; exact Ha.
  - apply menu_open_set_current; exact H.
  - exact H.
  - unfold tick. apply fold_preserves; [|exact H].
    intros a k Ha. apply resume_current; exact Ha.
Qed.

Lemma menu_reachable_current config d w :
  reachable onKeydown config d w -> attachment_current w.
Proof.
  induction 1 as [|ev w Hr IH].
  - unfold attachment_current, attached_condition. cbn.
    rewrite andb_false_r. discriminate.
  - apply menu_step_current; exact IH.
Qed.

(** C8: [Escape] on the open overlay sets OpenState to false and calls
    [focus] on the element that carries the menu's id (the trigger);
    [Escape] on the trigger sets OpenState to false and calls [focus] on
    nothing. *)
Theorem escape_closes_menu (e o t : Elem) (w : State) :
  open w = true ->
  byId (doc w) = Some t ->
  occurrences o (overlays w) = 1 ->
  occurrences e (triggers w) = 1 ->
  let inside := step onKeydown (OverlayKeydown o ESCAPE) w in
  let onTrigger := step onKeydown (TriggerKeydown e ESCAPE) w in
  open inside = false /\
  focusLog inside = focusLog w ++ [t] /\
  open onTrigger = false /\
  focusLog onTrigger = focusLog w.
Proof.
  intros Ho Hid Hov Htr. cbn [step]. rewrite Hov, Htr.
  cbn [iter useMenu_handleKeyDown useTrigger_handleKeyDown]. unfold hide, focusTrigger.
  destruct (menu_open_set_frame false w) as (h & log & its & km & aw & ocl & ->).
  cbn. rewrite Hid. cbn. repeat split.
Qed.

(** C9: on a closed menu, ArrowDown (ArrowUp) on the trigger sets
    OpenState to true; with the overlay element present by the time the
    pending [tick] resolves (mounted already, or mounted in that flush),
    the item list is the overlay's menu items and the first (last) item
    the skip predicate does not exclude is active and has received
    [onActivate]. *)
Theorem arrow_key_opens_and_activates (e o item : Elem) (key : Key) (w : State) :
  open w = false ->
  triggers w = [e] ->
  awaiting w = [] ->
  km_subscribed (keyManager w) = true ->
  overlayElement w = None \/ overlayElement w = Some o ->
  (key = DOWN_ARROW /\ first_not_skipped (doc w) item (getMenuItems (doc w) o)) \/
  (key = UP_ARROW /\ last_not_skipped (doc w) item (getMenuItems (doc w) o)) ->
  let pressed := step onKeydown (TriggerKeydown e key) w in
  let mounted :=
    match overlayElement w with
    | Some _ => pressed
    | None => step onKeydown (UseMenu o) pressed
    end in
  let settled := step onKeydown Tick mounted in
  open pressed = true /\
  open settled = true /\
  overlayElement settled = Some o /\
  km_items (keyManager settled) = getMenuItems (doc w) o /\
  km_active (keyManager settled) = Some item /\
  focusLog settled = focusLog w ++ [o; item].
Proof.
  intros Ho Ht Ha Hs Hov Hitem.
  assert (Hscan :
    match key with
    | DOWN_ARROW => first_eligible (doc w) (getMenuItems (doc w) o)
    | _ => first_eligible (doc w) (rev (getMenuItems (doc w) o))
    end = Some item /\ (key = DOWN_ARROW \/ key = UP_ARROW)).
  { destruct Hitem as [[-> H]|[-> H]].
    - split; [apply first_eligible_first; exact H|left; reflexivity].
    - split; [apply first_eligible_last; exact H|right; reflexivity]. }
  clear Hitem. destruct Hscan as [Hscan Hkey].
  assert (Hstep : step onKeydown (TriggerKeydown e key) w = useTrigger_handleKeyDown key w).
  { cbn [step]. rewrite Ht. cbn. rewrite Nat.eqb_refl. reflexivity. }
  cbv zeta. rewrite Hstep. clear Hstep.
  destruct w as [op cl oe its km tr ov d aw pl fl ocl].
  destruct km as [ki ka ks].
  cbn in Ho, Ht, Ha, Hs, Hov, Hscan. subst op tr aw ks.
  cbn [step].
  destruct Hov as [-> | ->]; destruct Hkey as [-> | ->];
    menu_compute; rewrite Hscan; menu_compute;
    rewrite <- ?app_assoc; repeat split.
Qed.

(** C10: on an open menu, ArrowDown or ArrowUp on the trigger leaves
    OpenState true: the commit changes nothing, no subscriber runs, nothing
    is attached or cleaned up; once the pending [tick] resolves the first
    (last) eligible item of the key manager's list is active and has
    received [onActivate].  Enter, Space and click on the trigger close the
    open menu. *)
Theorem arrow_key_keeps_menu_open (e item : Elem) (key : Key) (w : State) :
  open w = true ->
  triggers w = [e] ->
  awaiting w = [] ->
  (key = DOWN_ARROW /\ first_not_skipped (doc w) item (km_items (keyManager w))) \/
  (key = UP_ARROW /\ last_not_skipped (doc w) item (km_items (keyManager w))) ->
  let pressed := step onKeydown (TriggerKeydown e key) w in
  let settled := step onKeydown Tick pressed in
  open pressed = true /\
  open settled = true /\
  lifecycle pressed = lifecycle w /\
  lifecycle settled = lifecycle w /\
  km_active (keyManager settled) = Some item /\
  focusLog settled
  = focusLog w ++ match overlayElement w with Some ov => [ov] | None => [] end ++ [item] /\
  open (step onKeydown (TriggerKeydown e ENTER) w) = false /\
  open (step onKeydown (TriggerKeydown e SPACE) w) = false /\
  open (step onKeydown (TriggerClick e) w) = false.
Proof.
  intros Ho Ht Ha Hitem.
  assert (Hscan :
    match key with
    | DOWN_ARROW => first_eligible (doc w) (km_items (keyManager w))
    | _ => first_eligible (doc w) (rev (km_items (keyManager w)))
    end = Some item /\ (key = DOWN_ARROW \/ key = UP_ARROW)).
  { destruct Hitem as [[-> H]|[-> H]].
    - split; [apply first_eligible_first; exact H|left; reflexivity].
    - split; [apply first_eligible_last; exact H|right; reflexivity]. }
  clear Hitem. destruct Hscan as [Hscan Hkey].
  assert (Hclose : open (toggle w) = false).
  { unfold toggle, open_update. rewrite Ho.
    destruct (menu_open_set_frame (negb true) w) as (h & log & its & km & aw & ocl & ->).
    reflexivity. }
  assert (Hstep : forall k,
            step onKeydown (TriggerKeydown e k) w = useTrigger_handleKeyDown k w).
  { intros k. cbn [step]. rewrite Ht. cbn. rewrite Nat.eqb_refl. reflexivity. }
  assert (Hclick : step onKeydown (TriggerClick e) w = toggle w).
  { cbn [step]. rewrite Ht. cbn. rewrite Nat.eqb_refl. reflexivity. }
  rewrite !Hstep, Hclick. cbn [step useTrigger_handleKeyDown].
  split; [|split; [|split; [|split; [|split; [|split; [|repeat split; exact Hclose]]]]]];
    clear Hstep Hclick Hclose;
    destruct w as [op cl oe its km tr ov d aw pl fl ocl];
    destruct km as [ki ka ks];
    cbn in Ho, Ht, Ha, Hscan; subst op tr aw;
    destruct Hkey as [-> | ->]; destruct oe;
    menu_compute; rewrite ?Hscan; menu_compute;
    rewrite <- ?app_assoc; reflexivity.
Qed.

End WithKeyManager.

Lemma escape_closes_menu_witness :
  open menu_opened = true /\
  byId (doc menu_opened) = Some 1 /\
  occurrences 2 (overlays menu_opened) = 1 /\
  occurrences 1 (triggers menu_opened) = 1 /\
  focusLog (step idle_onKeydown (OverlayKeydown 2 ESCAPE) menu_opened)
  = focusLog menu_opened ++ [1] /\
  focusLog (step idle_onKeydown (TriggerKeydown 1 ESCAPE) menu_opened)
  = focusLog menu_opened.
Proof.
  assert (H1 : open menu_opened = true) by reflexivity.
  assert (H2 : byId (doc menu_opened) = Some 1) by reflexivity.
  assert (H3 : occurrences 2 (overlays menu_opened) = 1) by reflexivity.
  assert (H4 : occurrences 1 (triggers menu_opened) = 1) by reflexivity.
  pose proof (escape_closes_menu idle_onKeydown 1 2 1 menu_opened H1 H2 H3 H4) as T.
  cbv zeta in T. destruct T as (_ & T1 & _ & T2).
  exact (conj H1 (conj H2 (conj H3 (conj H4 (conj T1 T2))))).
Defined.

Lemma arrow_key_opens_and_activates_witness :
  open menu_mounted = false /\
  triggers menu_mounted = [1] /\
  awaiting menu_mounted = [] /\
  km_subscribed (keyManager menu_mounted) = true /\
  overlayElement menu_mounted = Some 2 /\
  first_not_skipped (doc menu_mounted) 11 (getMenuItems (doc menu_mounted) 2) /\
  km_active
    (keyManager
       (step idle_onKeydown Tick
          (step idle_onKeydown (TriggerKeydown 1 DOWN_ARROW) menu_mounted)))
  = Some 11.
Proof.
  assert (H1 : open menu_mounted = false) by reflexivity.
  assert (H2 : triggers menu_mounted = [1]) by reflexivity.
  assert (H3 : awaiting menu_mounted = []) by reflexivity.
  assert (H4 : km_subscribed (keyManager menu_mounted) = true) by reflexivity.
  assert (H5 : overlayElement menu_mounted = Some 2) by reflexivity.
  assert (H6 : first_not_skipped (doc menu_mounted) 11 (getMenuItems (doc menu_mounted) 2)).
  { exists [10], [12]. split; [reflexivity|]. split; [reflexivity|].
    intros x [<-|[]]. reflexivity. }
  pose proof (arrow_key_opens_and_activates idle_onKeydown 1 2 11 DOWN_ARROW menu_mounted
                H1 H2 H3 H4 (or_intror H5) (or_introl (conj eq_refl H6))) as T.
  cbv zeta in T. destruct T as (_ & _ & _ & _ & T & _).
  exact (conj H1 (conj H2 (conj H3 (conj H4 (conj H5 (conj H6 T)))))).
Defined.

Lemma arrow_key_keeps_menu_open_witness :
  open menu_opened = true /\
  triggers menu_opened = [1] /\
  awaiting menu_opened = [] /\
  last_not_skipped (doc menu_opened) 12 (km_items (keyManager menu_opened)) /\
  open (step idle_onKeydown Tick
          (step idle_onKeydown (TriggerKeydown 1 UP_ARROW) menu_opened)) = true /\
  km_active
    (keyManager
       (step idle_onKeydown Tick
          (step idle_onKeydown (TriggerKeydown 1 UP_ARROW) menu_opened)))
  = Some 12.
Proof.
  assert (H1 : open menu_opened = true) by reflexivity.
  assert (H2 : triggers menu_opened = [1]) by reflexivity.
  assert (H3 : awaiting menu_opened = []) by reflexivity.
  assert (H4 : last_not_skipped (doc menu_opened) 12 (km_items (keyManager menu_opened))).
  { exists [10; 11], []. split; [reflexivity|]. split; [reflexivity|].
    intros x []. }
  pose proof (arrow_key_keeps_menu_open idle_onKeydown 1 12 UP_ARROW menu_opened
                H1 H2 H3 (or_intror (conj eq_refl H4))) as T.
  cbv zeta in T. destruct T as (_ & T1 & _ & _ & T2 & _).
  exact (conj H1 (conj H2 (conj H3 (conj H4 (conj T1 T2))))).
Defined.

End MenuSpec.

(** ** What a detach does to the stored cleanup *)
Module TooltipDetach.
Import Tooltip.

Lemma attach_count_repeat_cleanup (log : list Placement.Call) (n k : nat) :
  Placement.attach_count (log ++ repeat (Placement.Cleanup n) k)
  = Placement.attach_count log.
Proof.
  induction k as [|k IH]; cbn [repeat].
  - rewrite app_nil_r. reflexivity.
  - change (Placement.Cleanup n :: repeat (Placement.Cleanup n) k)
      with ([Placement.Cleanup n] ++ repeat (Placement.Cleanup n) k).
    rewrite app_assoc, PlacementSpec.attach_count_app.
    rewrite PlacementSpec.attach_count_snoc_cleanup.
    rewrite PlacementSpec.attach_count_app in IH. lia.
Qed.

(** Outside the combined condition every subscription calls the stored
    cleanup and changes nothing else. *)
Lemma subscribers_detached (n : nat) (l : list Elem) :
  forall x,
    cleanup x = Placement.Placed n ->
    attached_condition x = false ->
    fold_left (fun acc e => subscriber e acc) l x
    = with_placementLog (placementLog x ++ repeat (Placement.Cleanup n) (length l)) x.
Proof.
  induction l as [|a l IH]; intros x Hc Hd; cbn [fold_left length repeat].
  - rewrite app_nil_r. destruct x; reflexivity.
  - assert (E : subscriber a x
                = with_placementLog (placementLog x ++ [Placement.Cleanup n]) x).
    { unfold subscriber, attached_condition, call_cleanup in *.
      destruct (open x); [destruct (tooltipElement x); [discriminate|]|];
        rewrite Hc; reflexivity. }
    rewrite E, IH; [|exact Hc|exact Hd].
    cbn. rewrite <- app_assoc. reflexivity.
Qed.

(** Subscriptions only ever add to the placement log. *)
Lemma subscribers_append (l : list Elem) :
  forall x, exists tail,
    placementLog (fold_left (fun acc e => subscriber e acc) l x)
    = placementLog x ++ tail.
Proof.
  induction l as [|a l IH]; intros x; cbn [fold_left].
  - exists []. rewrite app_nil_r. reflexivity.
  - destruct (IH (subscriber a x)) as (tail & ->).
    assert (E : exists t1, placementLog (subscriber a x) = placementLog x ++ t1).
    { unfold subscriber, init, call_cleanup.
      destruct (open x); [destruct (tooltipElement x)|]; cbn;
        destruct (cleanup x); cbn; eexists;
        rewrite <- ?app_assoc; try reflexivity;
        rewrite app_nil_r; reflexivity. }
    destruct E as (t1 & ->). exists (t1 ++ tail). rewrite app_assoc. reflexivity.
Qed.

(** Entering the combined condition: the first subscription calls the
    stored cleanup again, then attaches. *)
Lemma notify_attach_head (n : nat) (e1 o : Elem) (rest : list Elem) (x : State) :
  open x = true ->
  tooltipElement x = Some o ->
  triggers x = e1 :: rest ->
  cleanup x = Placement.Placed n ->
  Placement.attach_count (placementLog x) = n ->
  exists tail,
    placementLog (notify x)
    = placementLog x ++ Placement.Cleanup n :: Placement.Attach (S n) e1 o :: tail.
Proof.
  intros Ho Ht Htr Hc Hn. unfold notify. rewrite Htr. cbn [fold_left].
  destruct (subscribers_append rest (subscriber e1 x)) as (tail & ->).
  exists tail. unfold subscriber. rewrite Ho, Ht. unfold init, call_cleanup. cbn.
  rewrite Hc. cbn [Placement.invoke].
  rewrite PlacementSpec.attach_count_snoc_cleanup, Hn.
  rewrite <- !app_assoc. reflexivity.
Qed.

Section WithPolicy.

Variable policy : Timeout.StartPolicy.

(** The tooltip half of C2. *)
Lemma tooltip_detach_keeps_cleanup
    (config : TooltipConfig) (e1 o : Elem) (rest : list Elem) (w : State) :
  reachable policy config w ->
  open w = true ->
  tooltipElement w = Some o ->
  triggers w = e1 :: rest ->
  let n := Placement.attach_count (placementLog w) in
  let calls := repeat (Placement.Cleanup n) (length (triggers w)) in
  let closed := open_set false w in
  let unmounted := tooltipElement_set None w in
  cleanup w = Placement.Placed n /\
  (attached_condition closed = false /\
   placementLog closed = placementLog w ++ calls /\
   cleanup closed = Placement.Placed n) /\
  (attached_condition unmounted = false /\
   placementLog unmounted = placementLog w ++ calls /\
   cleanup unmounted = Placement.Placed n) /\
  (forall e,
     placementLog (destroyTrigger policy e closed)
     = placementLog closed ++ [Placement.Cleanup n] /\
     placementLog (destroyTrigger policy e unmounted)
     = placementLog unmounted ++ [Placement.Cleanup n]) /\
  (placementLog (tooltipElement_set None closed) = placementLog closed ++ calls /\
   placementLog (open_set false unmounted) = placementLog unmounted ++ calls) /\
  (exists tail,
     placementLog (open_set true closed)
     = placementLog closed
       ++ Placement.Cleanup n :: Placement.Attach (S n) e1 o :: tail) /\
  (forall o', exists tail,
     placementLog (tooltipElement_set (Some o') unmounted)
     = placementLog unmounted
       ++ Placement.Cleanup n :: Placement.Attach (S n) e1 o' :: tail).
Proof.
  intros Hr Ho Ht Htr n calls closed unmounted.
  assert (Hcur : cleanup w = Placement.Placed n).
  { apply (TooltipSpec.tooltip_reachable_current policy config w Hr).
    - unfold attached_condition. rewrite Ho, Ht. reflexivity.
    - rewrite Htr. discriminate. }
  assert (Ec : closed
               = with_placementLog (placementLog w ++ calls)
                   (with_open false (with_openChanges (openChanges w ++ [false]) w))).
  { unfold closed, open_set. rewrite Ho. cbn [Bool.eqb]. unfold notify.
    rewrite (subscribers_detached n); [reflexivity|exact Hcur|reflexivity]. }
  assert (Eu : unmounted
               = with_placementLog (placementLog w ++ calls)
                   (with_tooltipElement None w)).
  { unfold unmounted, tooltipElement_set. rewrite Ht. unfold notify.
    rewrite (subscribers_detached n); [reflexivity|exact Hcur|].
    unfold attached_condition. cbn. apply andb_false_r. }
  split; [exact Hcur|].
  split; [rewrite Ec; repeat split; exact Hcur|].
  split; [rewrite Eu; split; [unfold attached_condition; cbn; apply andb_false_r|];
          split; [reflexivity|exact Hcur]|].
  split.
  { intros e. rewrite Ec, Eu. unfold destroyTrigger, hide, call_cleanup. cbn.
    rewrite Hcur. split; reflexivity. }
  split.
  { split.
    - rewrite Ec. unfold tooltipElement_set. cbn [tooltipElement with_placementLog
        with_open with_openChanges]. rewrite Ht. unfold notify.
      rewrite (subscribers_detached n); [reflexivity|exact Hcur|].
      unfold attached_condition. cbn. reflexivity.
    - rewrite Eu. unfold open_set. cbn [open with_placementLog with_tooltipElement].
      rewrite Ho. cbn [Bool.eqb]. unfold notify.
      rewrite (subscribers_detached n); [reflexivity|exact Hcur|reflexivity]. }
  split.
  { rewrite Ec. unfold open_set. cbn [open with_placementLog with_open].
    cbn [Bool.eqb].
    match goal with
    | |- context [notify ?x] =>
        destruct (notify_attach_head n e1 o rest x) as (tail & E)
    end; try reflexivity; try assumption.
    - cbn. apply attach_count_repeat_cleanup.
    - exists tail. rewrite E. reflexivity. }
  { intros o'. rewrite Eu. unfold tooltipElement_set.
    match goal with
    | |- context [notify ?x] =>
        destruct (notify_attach_head n e1 o' rest x) as (tail & E)
    end; try reflexivity; try assumption.
    - cbn. apply attach_count_repeat_cleanup.
    - exists tail. rewrite E. reflexivity. }
Qed.

End WithPolicy.

End TooltipDetach.

Module MenuDetach.
Import Menu.

(** Outside the combined condition a subscription clears the active item
    and calls the stored cleanup; open state, overlay element, triggers and
    the variable stay as they are. *)
Lemma menu_subscribers_detached (n : nat) (l : list Elem) :
  forall x,
    cleanup x = Placement.Placed n ->
    attached_condition x = false ->
    let y := fold_left (fun acc e => subscriber e acc) l x in
    open y = open x /\
    overlayElement y = overlayElement x /\
    triggers y = triggers x /\
    cleanup y = Placement.Placed n /\
    placementLog y = placementLog x ++ repeat (Placement.Cleanup n) (length l).
Proof.
  induction l as [|a l IH]; intros x Hc Hd; cbn [fold_left length repeat]; cbv zeta.
  - rewrite app_nil_r. repeat split. exact Hc.
  - assert (E : open (subscriber a x) = open x /\
                overlayElement (subscriber a x) = overlayElement x /\
                triggers (subscriber a x) = triggers x /\
                cleanup (subscriber a x) = Placement.Placed n /\
                placementLog (subscriber a x)
                = placementLog x ++ [Placement.Cleanup n]).
    { unfold attached_condition in Hd.
      unfold subscriber, call_cleanup, setActiveItem_none.
      destruct (open x) eqn:Eo; [destruct (overlayElement x) eqn:Eov; [discriminate Hd|]|];
        cbn; rewrite ?Eo, ?Eov, Hc; repeat split. }
    destruct E as (E1 & E2 & E3 & E4 & E5).
    destruct (IH (subscriber a x) E4) as (I1 & I2 & I3 & I4 & I5).
    { unfold attached_condition in *. rewrite E1, E2. exact Hd. }
    rewrite I1, I2, I3, I5, E1, E2, E3, E5, <- app_assoc.
    repeat split. exact I4.
Qed.

(** Subscriptions only ever add to the placement log. *)
Lemma menu_subscribers_append (l : list Elem) :
  forall x, exists tail,
    placementLog (fold_left (fun acc e => subscriber e acc) l x)
    = placementLog x ++ tail.
Proof.
  induction l as [|a l IH]; intros x; cbn [fold_left].
  - exists []. rewrite app_nil_r. reflexivity.
  - destruct (IH (subscriber a x)) as (tail & ->).
    assert (E : exists t1, placementLog (subscriber a x) = placementLog x ++ t1).
    { unfold subscriber, setupPlacement, items_set, call_cleanup, setActiveItem_none.
      destruct (open x); [destruct (overlayElement x)|]; cbn;
        try match goal with
        | |- context [km_subscribed ?k] => destruct (km_subscribed k)
        end; cbn;
        destruct (cleanup x); cbn; eexists;
        rewrite <- ?app_assoc; try reflexivity;
        rewrite app_nil_r; reflexivity. }
    destruct E as (t1 & ->). exists (t1 ++ tail). rewrite app_assoc. reflexivity.
Qed.

(** Entering the combined condition: the first subscription calls the
    stored cleanup again, then attaches. *)
Lemma menu_notify_attach_head (n : nat) (e1 o : Elem) (rest : list Elem) (x : State) :
  open x = true ->
  overlayElement x = Some o ->
  triggers x = e1 :: rest ->
  cleanup x = Placement.Placed n ->
  Placement.attach_count (placementLog x) = n ->
  exists tail,
    placementLog (notify x)
    = placementLog x ++ Placement.Cleanup n :: Placement.Attach (S n) e1 o :: tail.
Proof.
  intros Ho Ht Htr Hc Hn. unfold notify. rewrite Htr. cbn [fold_left].
  destruct (menu_subscribers_append rest (subscriber e1 x)) as (tail & ->).
  exists tail. unfold subscriber. rewrite Ho, Ht.
  unfold setupPlacement, items_set, call_cleanup. cbn.
  destruct (km_subscribed (keyManager x)); cbn;
    rewrite Hc; cbn [Placement.invoke];
    rewrite PlacementSpec.attach_count_snoc_cleanup, Hn;
    rewrite <- !app_assoc; reflexivity.
Qed.

Lemma open_set_false_detached (n : nat) (x : State) :
  open x = true ->
  cleanup x = Placement.Placed n ->
  let y := open_set false x in
  open y = false /\
  overlayElement y = overlayElement x /\
  triggers y = triggers x /\
  cleanup y = Placement.Placed n /\
  placementLog y
  = placementLog x ++ repeat (Placement.Cleanup n) (length (triggers x)).
Proof.
  intros Ho Hc. unfold open_set. rewrite Ho. cbn [Bool.eqb]. unfold notify, effect.
  match goal with
  | |- context [fold_left _ ?l ?z] =>
      destruct (menu_subscribers_detached n l z) as (A & B & C & D & E)
  end; [exact Hc|reflexivity|].
  cbv zeta. rewrite A, B, C, D, E. repeat split.
Qed.

Lemma overlay_unset_detached (n : nat) (o : Elem) (x : State) :
  overlayElement x = Some o ->
  cleanup x = Placement.Placed n ->
  let y := overlayElement_set None x in
  open y = open x /\
  overlayElement y = None /\
  triggers y = triggers x /\
  cleanup y = Placement.Placed n /\
  placementLog y
  = placementLog x ++ repeat (Placement.Cleanup n) (length (triggers x)).
Proof.
  intros Ho Hc. unfold overlayElement_set. rewrite Ho. unfold notify.
  match goal with
  | |- context [fold_left _ ?l ?z] =>
      destruct (menu_subscribers_detached n l z) as (A & B & C & D & E)
  end; [exact Hc|unfold attached_condition; cbn; apply andb_false_r|].
  cbv zeta. rewrite A, B, C, D, E. repeat split.
Qed.

Lemma destroyTrigger_closed (n : nat) (e : Elem) (x : State) :
  open x = false ->
  cleanup x = Placement.Placed n ->
  placementLog (destroyTrigger e x) = placementLog x ++ [Placement.Cleanup n].
Proof.
  intros Ho Hc. unfold destroyTrigger, hide, open_set. cbn.
  rewrite Ho. cbn. rewrite Hc. reflexivity.
Qed.

Lemma destroyTrigger_unmounted (n : nat) (e : Elem) (x : State) :
  open x = true ->
  overlayElement x = None ->
  cleanup x = Placement.Placed n ->
  placementLog (destroyTrigger e x)
  = placementLog x
    ++ Placement.Cleanup n
       :: repeat (Placement.Cleanup n) (length (remove_first e (triggers x))).
Proof.
  intros Ho Hov Hc. unfold destroyTrigger, hide, open_set. cbn.
  rewrite Ho. cbn. unfold notify.
  match goal with
  | |- context [fold_left _ ?l ?z] =>
      destruct (menu_subscribers_detached n l z) as (_ & _ & _ & _ & E)
  end; [exact Hc|reflexivity|].
  rewrite E. cbn. rewrite Hc. cbn. rewrite <- app_assoc. reflexivity.
Qed.

Section WithKeyManager.

Variable onKeydown : Key -> Document -> KeyManager -> KeyManager * list ManagerCall.

(** The menu half of C2. *)
Lemma menu_detach_keeps_cleanup
    (config : MenuConfig) (d : Document) (e1 o : Elem) (rest : list Elem) (w : State) :
  reachable onKeydown config d w ->
  open w = true ->
  overlayElement w = Some o ->
  triggers w = e1 :: rest ->
  let n := Placement.attach_count (placementLog w) in
  let calls := repeat (Placement.Cleanup n) (length (triggers w)) in
  let closed := open_set false w in
  let unmounted := overlayElement_set None w in
  cleanup w = Placement.Placed n /\
  (attached_condition closed = false /\
   placementLog closed = placementLog w ++ calls /\
   cleanup closed = Placement.Placed n) /\
  (attached_condition unmounted = false /\
   placementLog unmounted = placementLog w ++ calls /\
   cleanup unmounted = Placement.Placed n) /\
  (forall e,
     placementLog (destroyTrigger e closed)
     = placementLog closed ++ [Placement.Cleanup n] /\
     placementLog (destroyTrigger e unmounted)
     = placementLog unmounted
       ++ Placement.Cleanup n
          :: repeat (Placement.Cleanup n) (length (remove_first e (triggers w)))) /\
  (placementLog (overlayElement_set None closed) = placementLog closed ++ calls /\
   placementLog (open_set false unmounted) = placementLog unmounted ++ calls) /\
  (exists tail,
     placementLog (open_set true closed)
     = placementLog closed
       ++ Placement.Cleanup n :: Placement.Attach (S n) e1 o :: tail) /\
  (forall o', exists tail,
     placementLog (overlayElement_set (Some o') unmounted)
     = placementLog unmounted
       ++ Placement.Cleanup n :: Placement.Attach (S n) e1 o' :: tail).
Proof.
  intros Hr Ho Ht Htr n calls closed unmounted.
  assert (Hcur : cleanup w = Placement.Placed n).
  { apply (MenuSpec.menu_reachable_current onKeydown config d w Hr).
    - unfold attached_condition. rewrite Ho, Ht. reflexivity.
    - rewrite Htr. discriminate. }
  destruct (open_set_false_detached n w Ho Hcur) as (C1 & C2 & C3 & C4 & C5).
  destruct (overlay_unset_detached n o w Ht Hcur) as (U1 & U2 & U3 & U4 & U5).
  fold closed in C1, C2, C3, C4, C5. fold unmounted in U1, U2, U3, U4, U5.
  fold calls in C5, U5.
  rewrite Ht in C2. rewrite Ho in U1.
  split; [exact Hcur|].
  split; [split; [unfold attached_condition; rewrite C1; reflexivity|];
          split; [exact C5|exact C4]|].
  split; [split; [unfold attached_condition; rewrite U2; apply andb_false_r|];
          split; [exact U5|exact U4]|].
  split.
  { intros e. split.
    - exact (destroyTrigger_closed n e closed C1 C4).
    - rewrite <- U3. exact (destroyTrigger_unmounted n e unmounted U1 U2 U4). }
  split.
  { split.
    - destruct (overlay_unset_detached n o closed C2 C4) as (_ & _ & _ & _ & E).
      rewrite E, C3. reflexivity.
    - destruct (open_set_false_detached n unmounted U1 U4) as (_ & _ & _ & _ & E).
      rewrite E, U3. reflexivity. }
  assert (Hcount : forall log,
            log = placementLog w ++ calls -> Placement.attach_count log = n).
  { intros log ->. apply TooltipDetach.attach_count_repeat_cleanup. }
  split.
  { assert (Eo : open_set true closed = notify (with_open true (effect true closed))).
    { unfold open_set. rewrite C1. reflexivity. }
    rewrite Eo.
    destruct (menu_notify_attach_head n e1 o rest (with_open true (effect true closed)))
      as (tail & E).
    - reflexivity.
    - exact C2.
    - rewrite <- Htr. exact C3.
    - exact C4.
    - exact (Hcount _ C5).
    - exists tail. rewrite E. reflexivity. }
  { intros o'.
    assert (Eo : overlayElement_set (Some o') unmounted
                 = notify (with_overlayElement (Some o') unmounted)) by reflexivity.
    rewrite Eo.
    destruct (menu_notify_attach_head n e1 o' rest (with_overlayElement (Some o') unmounted))
      as (tail & E).
    - exact U1.
    - reflexivity.
    - rewrite <- Htr. exact U3.
    - exact U4.
    - exact (Hcount _ U5).
    - exists tail. rewrite E. reflexivity. }
Qed.

End WithKeyManager.

End MenuDetach.

(** ** Properties shared by the two widgets *)
Module OverlaySpec.

Section BothWidgets.

Variable policy : Timeout.StartPolicy.
Variable onKeydown :
  Menu.Key -> Menu.Document -> Menu.KeyManager -> Menu.KeyManager * list Menu.ManagerCall.

(** C2 (as the code has it): when a store commit ends the combined
    condition (OpenState set to false, or the overlay element set to null)
    the subscription of every subscribed trigger calls the stored cleanup,
    which is the cleanup of the latest attachment: one call per subscribed
    trigger, exactly one with a single trigger.  The variable keeps that
    cleanup (it is not reset to the no-op), so each of the following calls
    the same, already called cleanup again: the teardown of a trigger, a
    later commit on the detach side (the other of the two stores), and the
    next attach, whose first act is that call.  Tooltip and menu alike. *)
Theorem detach_calls_cleanup_and_keeps_it
    (tconfig : Tooltip.TooltipConfig) (te tov : Elem) (trest : list Elem)
    (tw : Tooltip.State)
    (mconfig : Menu.MenuConfig) (d : Menu.Document) (me mov : Elem)
    (mrest : list Elem) (mw : Menu.State) :
  Tooltip.reachable policy tconfig tw ->
  Tooltip.open tw = true ->
  Tooltip.tooltipElement tw = Some tov ->
  Tooltip.triggers tw = te :: trest ->
  Menu.reachable onKeydown mconfig d mw ->
  Menu.open mw = true ->
  Menu.overlayElement mw = Some mov ->
  Menu.triggers mw = me :: mrest ->
  (let n := Placement.attach_count (Tooltip.placementLog tw) in
   let calls := repeat (Placement.Cleanup n) (length (Tooltip.triggers tw)) in
   let closed := Tooltip.open_set false tw in
   let unmounted := Tooltip.tooltipElement_set None tw in
   Tooltip.cleanup tw = Placement.Placed n /\
   (Tooltip.attached_condition closed = false /\
    Tooltip.placementLog closed = Tooltip.placementLog tw ++ calls /\
    Tooltip.cleanup closed = Placement.Placed n) /\
   (Tooltip.attached_condition unmounted = false /\
    Tooltip.placementLog unmounted = Tooltip.placementLog tw ++ calls /\
    Tooltip.cleanup unmounted = Placement.Placed n) /\
   (forall e,
      Tooltip.placementLog (Tooltip.destroyTrigger policy e closed)
      = Tooltip.placementLog closed ++ [Placement.Cleanup n] /\
      Tooltip.placementLog (Tooltip.destroyTrigger policy e unmounted)
      = Tooltip.placementLog unmounted ++ [Placement.Cleanup n]) /\
   (Tooltip.placementLog (Tooltip.tooltipElement_set None closed)
    = Tooltip.placementLog closed ++ calls /\
    Tooltip.placementLog (Tooltip.open_set false unmounted)
    = Tooltip.placementLog unmounted ++ calls) /\
   (exists tail,
      Tooltip.placementLog (Tooltip.open_set true closed)
      = Tooltip.placementLog closed
        ++ Placement.Cleanup n :: Placement.Attach (S n) te tov :: tail) /\
   (forall o', exists tail,
      Tooltip.placementLog (Tooltip.tooltipElement_set (Some o') unmounted)
      = Tooltip.placementLog unmounted
        ++ Placement.Cleanup n :: Placement.Attach (S n) te o' :: tail)) /\
  (let n := Placement.attach_count (Menu.placementLog mw) in
   let calls := repeat (Placement.Cleanup n) (length (Menu.triggers mw)) in
   let closed := Menu.open_set false mw in
   let unmounted := Menu.overlayElement_set None mw in
   Menu.cleanup mw = Placement.Placed n /\
   (Menu.attached_condition closed = false /\
    Menu.placementLog closed = Menu.placementLog mw ++ calls /\
    Menu.cleanup closed = Placement.Placed n) /\
   (Menu.attached_condition unmounted = false /\
    Menu.placementLog unmounted = Menu.placementLog mw ++ calls /\
    Menu.cleanup unmounted = Placement.Placed n) /\
   (forall e,
      Menu.placementLog (Menu.destroyTrigger e closed)
      = Menu.placementLog closed ++ [Placement.Cleanup n] /\
      Menu.placementLog (Menu.destroyTrigger e unmounted)
      = Menu.placementLog unmounted
        ++ Placement.Cleanup n
           :: repeat (Placement.Cleanup n)
                (length (remove_first e (Menu.triggers mw)))) /\
   (Menu.placementLog (Menu.overlayElement_set None closed)
    = Menu.placementLog closed ++ calls /\
    Menu.placementLog (Menu.open_set false unmounted)
    = Menu.placementLog unmounted ++ calls) /\
   (exists tail,
      Menu.placementLog (Menu.open_set true closed)
      = Menu.placementLog closed
        ++ Placement.Cleanup n :: Placement.Attach (S n) me mov :: tail) /\
   (forall o', exists tail,
      Menu.placementLog (Menu.overlayElement_set (Some o') unmounted)
      = Menu.placementLog unmounted
        ++ Placement.Cleanup n :: Placement.Attach (S n) me o' :: tail)).
Proof.
  intros Ht1 Ht2 Ht3 Ht4 Hm1 Hm2 Hm3 Hm4. split.
  - exact (TooltipDetach.tooltip_detach_keeps_cleanup policy tconfig te tov trest tw
             Ht1 Ht2 Ht3 Ht4).
  - exact (MenuDetach.menu_detach_keeps_cleanup onKeydown mconfig d me mov mrest mw
             Hm1 Hm2 Hm3 Hm4).
Qed.

End BothWidgets.

(** C3 (as the code has it): from the closed state with trigger and
    overlay mounted and nothing attached yet, [n] open/close toggles make
    exactly [n] attach calls and, for [n >= 1], [2n - 1] calls of returned
    cleanups: every returned cleanup is called when its toggle closes, and
    all but the last are called once more at the start of the next attach.
    The first call of cleanup [i] comes before attach [i+1].  Tooltip and
    menu alike. *)
Theorem toggles_attach_and_cleanup
    (n : nat) (te tov : Elem) (tw : Tooltip.State) (me mov : Elem) (mw : Menu.State) :
  Tooltip.open tw = false ->
  Tooltip.tooltipElement tw = Some tov ->
  Tooltip.triggers tw = [te] ->
  Tooltip.cleanup tw = Placement.Noop ->
  Tooltip.placementLog tw = [] ->
  Menu.open mw = false ->
  Menu.overlayElement mw = Some mov ->
  Menu.triggers mw = [me] ->
  Menu.cleanup mw = Placement.Noop ->
  Menu.placementLog mw = [] ->
  forall (e o : Elem) (log : list Placement.Call),
    (e = te /\ o = tov /\ log = Tooltip.placementLog (iter n Tooltip.open_close tw)) \/
    (e = me /\ o = mov /\ log = Menu.placementLog (iter n Menu.open_close mw)) ->
    Placement.attach_count log = n /\
    Placement.cleanup_count log = 2 * n - 1 /\
    (forall i, 1 <= i -> i <= n -> In (Placement.Cleanup i) log) /\
    (forall i, 1 <= i -> i < n ->
       Placement.before (Placement.Cleanup i) (Placement.Attach (S i) e o) log /\
       length (filter (Placement.is_cleanup_of i) log) = 2).
Proof.
  intros T1 T2 T3 T4 T5 M1 M2 M3 M4 M5 e o log Hlog.
  assert (E : log = toggles_log e o n).
  { destruct Hlog as [(-> & -> & ->)|(-> & -> & ->)].
    - exact (proj2 (proj2 (proj2 (proj2
               (TooltipSpec.tooltip_toggles_state te tov tw T1 T2 T3 T4 T5 n))))).
    - exact (proj2 (proj2 (proj2 (proj2
               (MenuSpec.menu_toggles_state me mov mw M1 M2 M3 M4 M5 n))))). }
  subst log.
  split; [apply PlacementSpec.toggles_log_attaches|].
  split; [apply PlacementSpec.toggles_log_cleanups|].
  split; [apply PlacementSpec.toggles_log_all_invoked|].
  intros i H1 H2. split.
  - apply PlacementSpec.toggles_log_order; assumption.
  - apply PlacementSpec.toggles_log_twice; assumption.
Qed.

Lemma detach_calls_cleanup_and_keeps_it_witness :
  let tw := tooltip_two_triggers Timeout.Restart in
  Tooltip.reachable Timeout.Restart (Tooltip.mkConfig None None) tw /\
  Tooltip.open tw = true /\
  Tooltip.tooltipElement tw = Some 2 /\
  Tooltip.triggers tw = [1; 3] /\
  Menu.reachable idle_onKeydown (Menu.mkConfig None) menu_document menu_opened /\
  Menu.open menu_opened = true /\
  Menu.overlayElement menu_opened = Some 2 /\
  Menu.triggers menu_opened = [1] /\
  Tooltip.placementLog (Tooltip.open_set false tw)
  = Tooltip.placementLog tw
    ++ repeat (Placement.Cleanup (Placement.attach_count (Tooltip.placementLog tw)))
         (length (Tooltip.triggers tw)) /\
  Menu.cleanup menu_opened
  = Placement.Placed (Placement.attach_count (Menu.placementLog menu_opened)).
Proof.
  intros tw.
  assert (H1 : Tooltip.reachable Timeout.Restart (Tooltip.mkConfig None None) tw).
  { unfold tw, tooltip_two_triggers, Tooltip.run. cbn [fold_left].
    do 4 apply Tooltip.reach_step. apply Tooltip.reach_create. }
  assert (H2 : Tooltip.open tw = true) by reflexivity.
  assert (H3 : Tooltip.tooltipElement tw = Some 2) by reflexivity.
  assert (H4 : Tooltip.triggers tw = [1; 3]) by reflexivity.
  assert (H5 : Menu.reachable idle_onKeydown (Menu.mkConfig None) menu_document menu_opened).
  { unfold menu_opened, menu_mounted, Menu.run. cbn [fold_left].
    do 4 apply Menu.reach_step. apply Menu.reach_create. }
  assert (H6 : Menu.open menu_opened = true) by reflexivity.
  assert (H7 : Menu.overlayElement menu_opened = Some 2) by reflexivity.
  assert (H8 : Menu.triggers menu_opened = [1]) by reflexivity.
  pose proof (detach_calls_cleanup_and_keeps_it Timeout.Restart idle_onKeydown
                (Tooltip.mkConfig None None) 1 2 [3] tw
                (Menu.mkConfig None) menu_document 1 2 [] menu_opened
                H1 H2 H3 H4 H5 H6 H7 H8) as T.
  cbv zeta in T. destruct T as ((_ & (_ & T1 & _) & _) & (T2 & _)).
  exact (conj H1 (conj H2 (conj H3 (conj H4 (conj H5 (conj H6 (conj H7 (conj H8
           (conj T1 T2))))))))).
Defined.

Lemma toggles_attach_and_cleanup_witness :
  let tw := tooltip_mounted Timeout.Restart in
  Tooltip.open tw = false /\
  Tooltip.tooltipElement tw = Some 2 /\
  Tooltip.triggers tw = [1] /\
  Tooltip.cleanup tw = Placement.Noop /\
  Tooltip.placementLog tw = [] /\
  Menu.open menu_mounted = false /\
  Menu.overlayElement menu_mounted = Some 2 /\
  Menu.triggers menu_mounted = [1] /\
  Menu.cleanup menu_mounted = Placement.Noop /\
  Menu.placementLog menu_mounted = [] /\
  Placement.attach_count
    (Tooltip.placementLog (iter 3 Tooltip.open_close tw)) = 3 /\
  Placement.cleanup_count
    (Menu.placementLog (iter 3 Menu.open_close menu_mounted)) = 2 * 3 - 1.
Proof.
  intros tw.
  assert (T1 : Tooltip.open tw = false) by reflexivity.
  assert (T2 : Tooltip.tooltipElement tw = Some 2) by reflexivity.
  assert (T3 : Tooltip.triggers tw = [1]) by reflexivity.
  assert (T4 : Tooltip.cleanup tw = Placement.Noop) by reflexivity.
  assert (T5 : Tooltip.placementLog tw = []) by reflexivity.
  assert (M1 : Menu.open menu_mounted = false) by reflexivity.
  assert (M2 : Menu.overlayElement menu_mounted = Some 2) by reflexivity.
  assert (M3 : Menu.triggers menu_mounted = [1]) by reflexivity.
  assert (M4 : Menu.cleanup menu_mounted = Placement.Noop) by reflexivity.
  assert (M5 : Menu.placementLog menu_mounted = []) by reflexivity.
  pose proof (toggles_attach_and_cleanup 3 1 2 tw 1 2 menu_mounted
                T1 T2 T3 T4 T5 M1 M2 M3 M4 M5) as T.
  pose proof (proj1 (T 1 2 _ (or_introl (conj eq_refl (conj eq_refl eq_refl))))) as R1.
  pose proof (proj1 (proj2 (T 1 2 _ (or_intror (conj eq_refl (conj eq_refl eq_refl)))))) as R2.
  exact (conj T1 (conj T2 (conj T3 (conj T4 (conj T5
        (conj M1 (conj M2 (conj M3 (conj M4 (conj M5 (conj R1 R2))))))))))).
Defined.

(** C7 (as the code has it): the object returned by [createTooltip] has
    the properties [open] (the OpenState store), [show], [hide] and
    [toggle]; the object returned by [createMenu] has [open] and none of
    [show], [hide], [toggle]. *)
Theorem returned_surface :
  property "open" Tooltip.returned = Some Tooltip.MOpenStore /\
  property "show" Tooltip.returned = Some Tooltip.MShow /\
  property "hide" Tooltip.returned = Some Tooltip.MHide /\
  property "toggle" Tooltip.returned = Some Tooltip.MToggle /\
  property "open" Menu.returned = Some Menu.MOpenStore /\
  property "show" Menu.returned = None /\
  property "hide" Menu.returned = None /\
  property "toggle" Menu.returned = None.
Proof. repeat split. Qed.

(** C7, counterexample: the menu's returned object has no [show], no
    [hide] and no [toggle]. *)
Lemma menu_returns_no_show_hide_toggle :
  ~ (exists m, property "show" Menu.returned = Some m) /\
  ~ (exists m, property "hide" Menu.returned = Some m) /\
  ~ (exists m, property "toggle" Menu.returned = Some m).
Proof. repeat split; intros (m & H); discriminate H. Qed.

(** C2, counterexample: a tooltip is opened and closed by [toggle]; after
    the close the variable still holds the cleanup of attachment 1, not
    the no-op, and the teardown of the trigger calls that cleanup again. *)
Lemma closed_tooltip_keeps_its_cleanup :
  let opened := Tooltip.toggle (tooltip_mounted Timeout.Restart) in
  let closed := Tooltip.toggle opened in
  Tooltip.attached_condition opened = true /\
  Tooltip.attached_condition closed = false /\
  Tooltip.cleanup closed <> Placement.Noop /\
  Tooltip.placementLog closed
  = [Placement.Attach 1 1 2; Placement.Cleanup 1] /\
  Tooltip.placementLog (Tooltip.destroyTrigger Timeout.Restart 1 closed)
  = [Placement.Attach 1 1 2; Placement.Cleanup 1; Placement.Cleanup 1].
Proof.
  cbv zeta. split; [reflexivity|]. split; [reflexivity|].
  split; [discriminate|]. split; reflexivity.
Qed.

(** C3, counterexample: two open/close toggles make two attach calls and
    three calls of returned cleanups. *)
Lemma two_toggles_three_cleanups :
  let log := Tooltip.placementLog
               (iter 2 Tooltip.open_close (tooltip_mounted Timeout.Restart)) in
  log = [Placement.Attach 1 1 2; Placement.Cleanup 1;
         Placement.Cleanup 1; Placement.Attach 2 1 2; Placement.Cleanup 2] /\
  Placement.attach_count log = 2 /\
  Placement.cleanup_count log = 3 /\
  Placement.cleanup_count log <> 2.
Proof.
  cbv zeta. split; [reflexivity|]. split; [reflexivity|].
  split; [reflexivity|]. discriminate.
Qed.

End OverlaySpec.

(** ** The order of attach and cleanup calls, for both widgets *)
Module PlacementOrder.
Import Placement.

Lemma snoc_split {A : Type} (l l1 l2 : list A) (x a : A) :
  l ++ [x] = l1 ++ a :: l2 ->
  (l2 = [] /\ l = l1 /\ x = a) \/
  (exists l2', l2 = l2' ++ [x] /\ l = l1 ++ a :: l2').
Proof.
  intros H. destruct l2 as [|y l2 _] using rev_ind.
  - left. apply app_inj_tail in H. destruct H as [-> ->]. repeat split.
  - right. exists l2.
    change (l1 ++ a :: l2 ++ [y]) with (l1 ++ (a :: l2) ++ [y]) in H.
    rewrite app_assoc in H. apply app_inj_tail in H. destruct H as [-> ->].
    split; reflexivity.
Qed.

Lemma latest_handle_invoke (h : Handle) (log : list Call) :
  latest_handle (invoke h log) = latest_handle log.
Proof. unfold latest_handle. rewrite PlacementSpec.attach_count_invoke. reflexivity. Qed.

(** Calling the stored cleanup keeps variable and log in agreement. *)
Lemma wf_invoke (h : Handle) (log : list Call) :
  placement_wf h log -> placement_wf h (invoke h log).
Proof.
  intros [Hh Hc]. split; [rewrite latest_handle_invoke; exact Hh|].
  destruct h as [|k]; [exact Hc|]. cbn [invoke].
  intros l1 n e o l2 E.
  destruct (snoc_split _ _ _ _ _ E) as [(_ & _ & Habs)|(l2' & _ & E')].
  - discriminate Habs.
  - exact (Hc _ _ _ _ _ E').
Qed.

(** So does the pair "call the stored cleanup, then attach". *)
Lemma wf_attach (h : Handle) (log : list Call) (e o : Elem) :
  placement_wf h log ->
  placement_wf (fst (getPlacement e o (invoke h log)))
               (snd (getPlacement e o (invoke h log))).
Proof.
  intros H. pose proof (wf_invoke h log H) as [Hh Hc].
  destruct H as [Hh0 _].
  unfold getPlacement. cbn [fst snd]. split.
  - unfold latest_handle. rewrite PlacementSpec.attach_count_snoc_attach. reflexivity.
  - intros l1 n e' o' l2 E.
    destruct (snoc_split _ _ _ _ _ E) as [(_ & <- & Heq)|(l2' & _ & E')].
    + injection Heq as Hn _ _.
      rewrite PlacementSpec.attach_count_invoke in Hn.
      unfold latest_handle in Hh0. rewrite Hn in Hh0. subst h.
      exists log. reflexivity.
    + exact (Hc _ _ _ _ _ E').
Qed.

Lemma fold_left_invariant {A B : Type} (P : A -> Prop) (f : A -> B -> A) :
  (forall a b, P a -> P (f a b)) -> forall l a, P a -> P (fold_left f l a).
Proof.
  intros Hf l. induction l as [|b l IH]; intros a Ha; cbn; [exact Ha|].
  apply IH. apply Hf. exact Ha.
Qed.

Lemma wf_empty : placement_wf Noop [].
Proof.
  split; [reflexivity|].
  intros l1 n e o l2 E. destruct l1; discriminate E.
Qed.

End PlacementOrder.

(** ** Further properties of the tooltip *)
Module TooltipMore.
Import Tooltip.

Lemma tooltip_order_call_cleanup_wf (w : State) :
  placement_wf (cleanup w) (placementLog w) ->
  placement_wf (cleanup (call_cleanup w)) (placementLog (call_cleanup w)).
Proof. intros H. exact (PlacementOrder.wf_invoke _ _ H). Qed.

Lemma tooltip_order_subscriber_wf (e : Elem) (w : State) :
  placement_wf (cleanup w) (placementLog w) ->
  placement_wf (cleanup (subscriber e w)) (placementLog (subscriber e w)).
Proof.
  intros H. unfold subscriber.
  destruct (open w); [destruct (tooltipElement w) as [tip|]|];
    try (apply tooltip_order_call_cleanup_wf; exact H).
  exact (PlacementOrder.wf_attach _ _ e tip H).
Qed.

Lemma tooltip_order_notify_wf (w : State) :
  placement_wf (cleanup w) (placementLog w) ->
  placement_wf (cleanup (notify w)) (placementLog (notify w)).
Proof.
  unfold notify.
  apply (PlacementOrder.fold_left_invariant
           (fun x => placement_wf (cleanup x) (placementLog x))
           (fun acc e => subscriber e acc)).
  intros a e Ha. apply tooltip_order_subscriber_wf; exact Ha.
Qed.

Lemma tooltip_order_open_set_wf (b : bool) (w : State) :
  placement_wf (cleanup w) (placementLog w) ->
  placement_wf (cleanup (open_set b w)) (placementLog (open_set b w)).
Proof.
  intros H. unfold open_set.
  destruct (Bool.eqb (open w) b); [exact H|]. apply tooltip_order_notify_wf. exact H.
Qed.

Lemma tooltip_order_tooltipElement_set_wf (x : option Elem) (w : State) :
  placement_wf (cleanup w) (placementLog w) ->
  placement_wf (cleanup (tooltipElement_set x w)) (placementLog (tooltipElement_set x w)).
Proof.
  intros H. unfold tooltipElement_set.
  destruct x; [apply tooltip_order_notify_wf; exact H|].
  destruct (tooltipElement w); [apply tooltip_order_notify_wf; exact H|exact H].
Qed.

(** What a run of the subscribers adds to the number of attachments. *)
Lemma subscribers_attach_count (l : list Elem) :
  forall w,
    Placement.attach_count
      (placementLog (fold_left (fun acc e => subscriber e acc) l w))
    = Placement.attach_count (placementLog w)
      + (if attached_condition w then length l else 0).
Proof.
  induction l as [|e l IH]; intros w; cbn [fold_left length].
  - destruct (attached_condition w); lia.
  - rewrite IH.
    destruct (TooltipSpec.tooltip_subscriber_frame e w) as (h & log & E).
    assert (Hc : attached_condition (subscriber e w) = attached_condition w)
      by (rewrite E; reflexivity).
    rewrite Hc. clear E h log Hc.
    unfold attached_condition, subscriber, init, call_cleanup.
    destruct (open w); [destruct (tooltipElement w) as [tip|]|]; cbn;
      rewrite ?PlacementSpec.attach_count_snoc_attach,
        ?PlacementSpec.attach_count_invoke; lia.
Qed.

Lemma notify_attaches (w : State) :
  Placement.attach_count (placementLog (notify w))
  <> Placement.attach_count (placementLog w) ->
  attached_condition (notify w) = true /\ triggers (notify w) <> [].
Proof.
  intros H. unfold notify in H. rewrite subscribers_attach_count in H.
  destruct (TooltipSpec.tooltip_notify_frame w) as (h & log & ->).
  change (attached_condition w = true /\ triggers w <> []).
  destruct (attached_condition w); [|lia].
  split; [reflexivity|]. destruct (triggers w); [cbn in H; lia|discriminate].
Qed.

Lemma open_set_attaches (b : bool) (w : State) :
  Placement.attach_count (placementLog (open_set b w))
  <> Placement.attach_count (placementLog w) ->
  attached_condition (open_set b w) = true /\ triggers (open_set b w) <> [].
Proof.
  unfold open_set. destruct (Bool.eqb (open w) b).
  - intros H. exfalso. apply H. reflexivity.
  - intros H. apply notify_attaches. exact H.
Qed.

Lemma tooltipElement_set_attaches (x : option Elem) (w : State) :
  Placement.attach_count (placementLog (tooltipElement_set x w))
  <> Placement.attach_count (placementLog w) ->
  attached_condition (tooltipElement_set x w) = true /\
  triggers (tooltipElement_set x w) <> [].
Proof.
  unfold tooltipElement_set.
  destruct x as [e|]; [intros H; apply notify_attaches; exact H|].
  destruct (tooltipElement w).
  - intros H. apply notify_attaches. exact H.
  - intros H. exfalso. apply H. reflexivity.
Qed.

Lemma fireShowTimer_idle (t : nat) (w : State) :
  Timeout.pending (showTimer w) = false -> fireShowTimer t w = w.
Proof.
  unfold Timeout.pending, fireShowTimer, Timeout.due.
  destruct (Timeout.scheduled (showTimer w)); [discriminate|reflexivity].
Qed.

Lemma fireHideTimer_idle (t : nat) (w : State) :
  Timeout.pending (hideTimer w) = false -> fireHideTimer t w = w.
Proof.
  unfold Timeout.pending, fireHideTimer, Timeout.due.
  destruct (Timeout.scheduled (hideTimer w)); [discriminate|reflexivity].
Qed.

Lemma fireShowTimer_attaches (t : nat) (w : State) :
  Placement.attach_count (placementLog (fireShowTimer t w))
  <> Placement.attach_count (placementLog w) ->
  attached_condition (fireShowTimer t w) = true /\ triggers (fireShowTimer t w) <> [].
Proof.
  unfold fireShowTimer. destruct (Timeout.due t (showTimer w)).
  - exact (open_set_attaches true (stopShowTimer w)).
  - intros H. exfalso. apply H. reflexivity.
Qed.

Lemma fireHideTimer_attaches (t : nat) (w : State) :
  Placement.attach_count (placementLog (fireHideTimer t w))
  <> Placement.attach_count (placementLog w) ->
  attached_condition (fireHideTimer t w) = true /\ triggers (fireHideTimer t w) <> [].
Proof.
  unfold fireHideTimer. destruct (Timeout.due t (hideTimer w)).
  - exact (open_set_attaches false (stopHideTimer w)).
  - intros H. exfalso. apply H. reflexivity.
Qed.

Lemma fireShowTimer_hideTimer (t : nat) (w : State) :
  hideTimer (fireShowTimer t w) = hideTimer w.
Proof.
  unfold fireShowTimer. destruct (Timeout.due t (showTimer w)); [|reflexivity].
  destruct (TooltipSpec.tooltip_open_set_frame true (stopShowTimer w)) as (h & log & ->).
  reflexivity.
Qed.

Lemma fireHideTimer_showTimer (t : nat) (w : State) :
  showTimer (fireHideTimer t w) = showTimer w.
Proof.
  unfold fireHideTimer. destruct (Timeout.due t (hideTimer w)); [|reflexivity].
  destruct (TooltipSpec.tooltip_open_set_frame false (stopHideTimer w)) as (h & log & ->).
  reflexivity.
Qed.

Section WithPolicy.

Variable policy : Timeout.StartPolicy.

Lemma tooltip_order_step_placement_wf (ev : Event) (w : State) :
  placement_wf (cleanup w) (placementLog w) ->
  placement_wf (cleanup (step policy ev w)) (placementLog (step policy ev w)).
Proof.
  intros H.
  destruct ev as [e|e|e|e|e ty|d| | |b|ms]; cbn [step].
  - unfold useTooltipTrigger. apply tooltip_order_subscriber_wf. exact H.
  - unfold destroyTrigger. exact (tooltip_order_call_cleanup_wf w H).
  - unfold useTooltip. exact (tooltip_order_tooltipElement_set_wf (Some e) w H).
  - unfold destroyTooltip. apply tooltip_order_tooltipElement_set_wf. exact H.
  - unfold dispatch.
    apply (iter_preserves (fun x => placement_wf (cleanup x) (placementLog x))).
    + intros a Ha. destruct ty; exact Ha.
    + apply (iter_preserves (fun x => placement_wf (cleanup x) (placementLog x)));
        [|exact H].
      intros a Ha. destruct ty; exact Ha.
  - exact H.
  - exact H.
  - unfold toggle, open_update. apply tooltip_order_open_set_wf. exact H.
  - apply tooltip_order_open_set_wf. exact H.
  - unfold elapse, fireHideTimer, fireShowTimer.
    repeat match goal with
    | |- context [if ?c then _ else _] => destruct c
    end;
    repeat first [ exact H | apply tooltip_order_open_set_wf ].
Qed.

(** X1: in every reachable state the [cleanup] variable holds the cleanup
    of the most recent attachment (the no-op before the first one), and
    every attachment after the first was made right after a call of the
    previous attachment's cleanup. *)
Theorem tooltip_cleans_before_attaching (config : TooltipConfig) (w : State) :
  reachable policy config w ->
  cleanup w = latest_handle (placementLog w) /\
  cleaned_before_attach (placementLog w).
Proof.
  induction 1 as [|ev w Hr IH].
  - exact PlacementOrder.wf_empty.
  - exact (tooltip_order_step_placement_wf ev w IH).
Qed.

(** X2: a step that makes an attach call ends with the tooltip open, the
    overlay element present and a trigger subscribed: nothing is ever
    attached for a closed or unmounted tooltip. *)
Theorem tooltip_attaches_only_when_shown (config : TooltipConfig) (ev : Event) (w : State) :
  reachable policy config w ->
  Placement.attach_count (placementLog (step policy ev w))
  <> Placement.attach_count (placementLog w) ->
  attached_condition (step policy ev w) = true /\
  triggers (step policy ev w) <> [].
Proof.
  intros Hr.
  pose proof (TooltipSpec.reachable_exclusive policy config w Hr) as Hex.
  destruct ev as [e|e|e|e|e ty|d| | |b|ms]; cbn [step].
  - unfold useTooltipTrigger. intros H.
    change (subscriber e (with_triggers (triggers w ++ [e]) w))
      with (fold_left (fun acc x => subscriber x acc) [e]
              (with_triggers (triggers w ++ [e]) w)) in *.
    rewrite subscribers_attach_count in H.
    destruct (TooltipSpec.tooltip_subscribers_frame [e]
                (with_triggers (triggers w ++ [e]) w)) as (h & log & ->).
    cbn in *. unfold attached_condition in *. cbn in *.
    destruct (open w && _); [|lia].
    split; [reflexivity|]. destruct (triggers w); discriminate.
  - unfold destroyTrigger, hide, call_cleanup. cbn.
    rewrite PlacementSpec.attach_count_invoke. intros H. exfalso. apply H. reflexivity.
  - unfold useTooltip. exact (tooltipElement_set_attaches (Some e) w).
  - unfold destroyTooltip.
    exact (tooltipElement_set_attaches None (with_overlays (remove_first e (overlays w)) w)).
  - intros H. exfalso. apply H.
    unfold dispatch.
    apply (iter_preserves (fun x => Placement.attach_count (placementLog x)
                                    = Placement.attach_count (placementLog w))).
    + intros a Ha. destruct ty; exact Ha.
    + apply (iter_preserves (fun x => Placement.attach_count (placementLog x)
                                      = Placement.attach_count (placementLog w)));
        [|reflexivity].
      intros a Ha. destruct ty; exact Ha.
  - intros H. exfalso. apply H. reflexivity.
  - intros H. exfalso. apply H. reflexivity.
  - unfold toggle, open_update. apply open_set_attaches.
  - apply open_set_attaches.
  - unfold elapse.
    destruct Hex as [Hs|Hh].
    + rewrite (fireShowTimer_idle _ w Hs).
      assert (Hs' : Timeout.pending (showTimer (fireHideTimer (now w + ms) w)) = false)
        by (rewrite fireHideTimer_showTimer; exact Hs).
      rewrite (fireShowTimer_idle _ _ Hs').
      destruct (Timeout.fires_first (showTimer w) (hideTimer w));
        exact (fireHideTimer_attaches (now w + ms) w).
    + rewrite (fireHideTimer_idle _ w Hh).
      assert (Hh' : Timeout.pending (hideTimer (fireShowTimer (now w + ms) w)) = false)
        by (rewrite fireShowTimer_hideTimer; exact Hh).
      rewrite (fireHideTimer_idle _ _ Hh').
      destruct (Timeout.fires_first (showTimer w) (hideTimer w));
        exact (fireShowTimer_attaches (now w + ms) w).
Qed.

(** What passing time does when the show timer is due and no hide is
    pending. *)
Lemma elapse_show_fires (ms due : nat) (w : State) :
  Timeout.scheduled (showTimer w) = Some due ->
  Timeout.scheduled (hideTimer w) = None ->
  due <= now w + ms ->
  exists h log,
    elapse ms w
    = with_now (now w + ms)
        (with_cleanup h (with_placementLog log
           (with_open true (with_openChanges (openChanges w ++ [true])
              (stopShowTimer w))))).
Proof.
  intros Hs Hh Hle.
  rewrite TooltipSpec.elapse_without_hide by exact Hh.
  unfold fireShowTimer, Timeout.due. rewrite Hs.
  destruct (Nat.leb_spec due (now w + ms)); [|lia].
  destruct (TooltipSpec.tooltip_open_set_frame true (stopShowTimer w)) as (h & log & ->).
  exists h, log. reflexivity.
Qed.

(** What passing time does when the hide timer is due and no show is
    pending. *)
Lemma elapse_hide_fires (ms due : nat) (w : State) :
  Timeout.scheduled (showTimer w) = None ->
  Timeout.scheduled (hideTimer w) = Some due ->
  due <= now w + ms ->
  exists h log,
    elapse ms w
    = with_now (now w + ms)
        (with_cleanup h (with_placementLog log
           (with_open false (with_openChanges (openChanges w ++ [false])
              (stopHideTimer w))))).
Proof.
  intros Hs Hh Hle.
  rewrite TooltipSpec.elapse_without_show by exact Hs.
  unfold fireHideTimer, Timeout.due. rewrite Hh.
  destruct (Nat.leb_spec due (now w + ms)); [|lia].
  destruct (TooltipSpec.tooltip_open_set_frame false (stopHideTimer w)) as (h & log & ->).
  exists h, log. reflexivity.
Qed.

(** X3: the full hover cycle.  Pointer enters the trigger, at least
    [openDelay] ms pass, pointer leaves, at least 500 ms pass: OpenState is
    committed exactly twice, first to [true], then to [false]; the tooltip
    is open in between and closed at the end. *)
Theorem hover_cycle_opens_then_closes
    (config : TooltipConfig) (e : Elem) (t1 t2 : nat) (w : State) :
  reachable policy config w ->
  occurrences e (triggers w) = 1 ->
  occurrences e (overlays w) = 0 ->
  policy = Timeout.Restart \/ Timeout.pending (showTimer w) = false ->
  openDelay w <= t1 ->
  500 <= t2 ->
  let hovered := elapse t1 (dispatch policy e PointerEnter w) in
  let left := elapse t2 (dispatch policy e PointerLeave hovered) in
  open hovered = true /\
  openChanges hovered = openChanges w ++ [true] /\
  open left = false /\
  openChanges left = openChanges w ++ [true; false].
Proof.
  intros Hr Ht Ho Hp H1 H2.
  destruct (TooltipSpec.reachable_wf policy config w Hr) as (Hd & _ & _).
  assert (Henter : dispatch policy e PointerEnter w = show policy (Some (openDelay w)) w).
  { unfold dispatch. rewrite Ht, Ho. reflexivity. }
  cbv zeta. rewrite Henter.
  pose proof (TooltipSpec.show_schedules policy (openDelay w) w Hp) as Hs.
  destruct (elapse_show_fires t1 (now w + openDelay w)
              (show policy (Some (openDelay w)) w) Hs eq_refl)
    as (h1 & log1 & ->); [cbn; lia|].
  match goal with
  | |- context [dispatch policy e PointerLeave ?x] =>
      assert (Hleave : dispatch policy e PointerLeave x = hide policy x)
        by (unfold dispatch; cbn [triggers overlays with_now with_cleanup
              with_placementLog with_open with_openChanges stopShowTimer
              with_showTimer show startShowTimer delayShowTimer_set stopHideTimer
              with_hideTimer];
            rewrite Ht, Ho; reflexivity);
      rewrite Hleave; clear Hleave;
      destruct (elapse_hide_fires t2 (now w + t1 + 500) (hide policy x))
        as (h2 & log2 & ->)
  end.
  - reflexivity.
  - cbn. unfold Timeout.start. cbn. rewrite Hd.
    destruct policy; reflexivity.
  - cbn. lia.
  - cbn. rewrite <- app_assoc. repeat split.
Qed.

(** Time passing over an open tooltip with no hide pending commits nothing
    but [true], changes no attachment and leaves the tooltip open. *)
Lemma elapses_stay_open (later : list nat) :
  forall w,
    Timeout.scheduled (hideTimer w) = None ->
    open w = true ->
    let w' := tooltip_elapses policy later w in
    open w' = true /\
    cleanup w' = cleanup w /\
    placementLog w' = placementLog w /\
    exists l, openChanges w' = openChanges w ++ l /\ Forall (eq true) l.
Proof.
  unfold tooltip_elapses, run.
  induction later as [|m later IH]; intros w Hh Ho; cbn [map fold_left step].
  - cbv zeta. split; [exact Ho|]. split; [reflexivity|]. split; [reflexivity|].
    exists []. rewrite app_nil_r. split; [reflexivity|constructor].
  - assert (E : exists l1,
              elapse m w
              = with_now (now w + m)
                  (with_showTimer (if Timeout.due (now w + m) (showTimer w)
                                   then Timeout.stop (showTimer w) else showTimer w)
                     (with_openChanges (openChanges w ++ l1) w))
              /\ Forall (eq true) l1).
    { rewrite TooltipSpec.elapse_without_hide by exact Hh.
      unfold fireShowTimer.
      destruct (Timeout.due (now w + m) (showTimer w)).
      - exists [true]. split; [|repeat constructor].
        unfold open_set. cbn. rewrite Ho. reflexivity.
      - exists []. split; [|constructor].
        rewrite app_nil_r. destruct w; reflexivity. }
    destruct E as (l1 & -> & F1).
    match goal with
    | |- context [fold_left _ _ ?x] => destruct (IH x) as (A & B & C & l2 & D & F2)
    end; [exact Hh|exact Ho|].
    cbv zeta. rewrite A, B, C, D. cbn.
    repeat split. exists (l1 ++ l2). rewrite app_assoc.
    split; [reflexivity|apply Forall_app; split; assumption].
Qed.

(** X4: pointer-enter on the overlay cancels a pending hide, and an open
    tooltip then stays open however much time passes: only [true] is
    committed, and the attachment is left alone. *)
Theorem overlay_hover_keeps_tooltip_open (o : Elem) (later : list nat) (w : State) :
  occurrences o (overlays w) = 1 ->
  occurrences o (triggers w) = 0 ->
  open w = true ->
  let entered := dispatch policy o PointerEnter w in
  let w' := tooltip_elapses policy later entered in
  Timeout.pending (hideTimer entered) = false /\
  open w' = true /\
  cleanup w' = cleanup w /\
  placementLog w' = placementLog w /\
  exists l, openChanges w' = openChanges w ++ l /\ Forall (eq true) l.
Proof.
  intros Ho Ht Hopen.
  assert (Henter : dispatch policy o PointerEnter w = show policy None w).
  { unfold dispatch. rewrite Ht, Ho. reflexivity. }
  cbv zeta. rewrite Henter.
  split; [reflexivity|].
  exact (elapses_stay_open later (show policy None w) eq_refl Hopen).
Qed.

(** X5: [toggle()] does not touch the timers.  A hide that is pending when
    a closed tooltip is toggled open still runs when due and closes it
    again. *)
Theorem toggle_leaves_pending_hide (ms due : nat) (w : State) :
  open w = false ->
  Timeout.scheduled (showTimer w) = None ->
  Timeout.scheduled (hideTimer w) = Some due ->
  due <= now w + ms ->
  showTimer (toggle w) = showTimer w /\
  hideTimer (toggle w) = hideTimer w /\
  open (toggle w) = true /\
  open (elapse ms (toggle w)) = false /\
  openChanges (elapse ms (toggle w)) = openChanges w ++ [true; false].
Proof.
  intros Ho Hs Hh Hle.
  unfold toggle, open_update. rewrite Ho. cbn [negb].
  destruct (TooltipSpec.tooltip_open_set_frame true w) as (h & log & ->).
  split; [reflexivity|]. split; [reflexivity|]. split; [reflexivity|].
  match goal with
  | |- context [elapse ms ?x] =>
      destruct (elapse_hide_fires ms due x Hs Hh Hle) as (h2 & log2 & ->)
  end.
  cbn. rewrite <- app_assoc. split; reflexivity.
Qed.

(** X6: in every reachable state at most one of the two timers is pending,
    the hide timer has its delay of 500 ms, a pending hide is due within
    500 ms, and [openDelay] is the configured value (1000 by default). *)
Theorem timers_stay_exclusive (config : TooltipConfig) (w : State) :
  reachable policy config w ->
  (Timeout.pending (showTimer w) = false \/ Timeout.pending (hideTimer w) = false) /\
  Timeout.delay (hideTimer w) = 500 /\
  (forall d, Timeout.scheduled (hideTimer w) = Some d -> d <= now w + 500) /\
  openDelay w = match cfg_openDelay config with Some d => d | None => 1000 end.
Proof.
  intros Hr. split.
  - exact (TooltipSpec.reachable_exclusive policy config w Hr).
  - exact (TooltipSpec.reachable_wf policy config w Hr).
Qed.

End WithPolicy.

(** X7: when the overlay element is unmounted while the tooltip is open,
    OpenState and both timers stay as they are and the stored cleanup is
    called; when an overlay element is mounted again, the stored cleanup is
    called once more and a fresh attachment to the new element is made. *)
Theorem overlay_remount_reattaches (e o o' : Elem) (w : State) :
  open w = true ->
  tooltipElement w = Some o ->
  triggers w = [e] ->
  let unmounted := destroyTooltip o w in
  let remounted := useTooltip o' unmounted in
  let n := S (Placement.attach_count (placementLog w)) in
  open unmounted = true /\
  showTimer unmounted = showTimer w /\
  hideTimer unmounted = hideTimer w /\
  openChanges unmounted = openChanges w /\
  tooltipElement unmounted = None /\
  placementLog unmounted = Placement.invoke (cleanup w) (placementLog w) /\
  open remounted = true /\
  tooltipElement remounted = Some o' /\
  cleanup remounted = Placement.Placed n /\
  placementLog remounted
  = Placement.invoke (cleanup w) (Placement.invoke (cleanup w) (placementLog w))
    ++ [Placement.Attach n e o'].
Proof.
  intros Ho Ht Htr.
  destruct w as [nw od op cl st ht te tr ov pl oc].
  cbn in Ho, Ht, Htr. subst op te tr.
  unfold destroyTooltip, useTooltip, tooltipElement_set, notify. cbn.
  unfold subscriber, init, call_cleanup. cbn.
  rewrite !PlacementSpec.attach_count_invoke.
  repeat split.
Qed.

End TooltipMore.

(** ** Further properties of the menu *)
Module MenuMore.
Import Menu.

#[local] Arguments first_eligible : simpl never.
#[local] Arguments getMenuItems : simpl never.

Lemma menu_order_lifecycle_wf (w1 w2 : State) :
  lifecycle w1 = lifecycle w2 ->
  placement_wf (cleanup w1) (placementLog w1) ->
  placement_wf (cleanup w2) (placementLog w2).
Proof. unfold lifecycle. intros [= _ _ _ <- <-]. exact (fun H => H). Qed.

Lemma menu_order_subscriber_wf (e : Elem) (w : State) :
  placement_wf (cleanup w) (placementLog w) ->
  placement_wf (cleanup (subscriber e w)) (placementLog (subscriber e w)).
Proof.
  intros H. unfold subscriber.
  destruct (open w); [destruct (overlayElement w) as [ov|]|];
    try exact (PlacementOrder.wf_invoke _ _ H).
  pose proof (PlacementOrder.wf_attach _ _ e ov H) as H'.
  unfold items_set.
  destruct (km_subscribed (keyManager (setupPlacement e ov w))); exact H'.
Qed.

Lemma menu_order_notify_wf (w : State) :
  placement_wf (cleanup w) (placementLog w) ->
  placement_wf (cleanup (notify w)) (placementLog (notify w)).
Proof.
  unfold notify.
  apply (PlacementOrder.fold_left_invariant
           (fun x => placement_wf (cleanup x) (placementLog x))
           (fun acc e => subscriber e acc)).
  intros a e Ha. apply menu_order_subscriber_wf; exact Ha.
Qed.

Lemma menu_order_open_set_wf (b : bool) (w : State) :
  placement_wf (cleanup w) (placementLog w) ->
  placement_wf (cleanup (open_set b w)) (placementLog (open_set b w)).
Proof.
  intros H. unfold open_set.
  destruct (Bool.eqb (open w) b); [|apply menu_order_notify_wf]; destruct b; exact H.
Qed.

Lemma menu_order_overlayElement_set_wf (x : option Elem) (w : State) :
  placement_wf (cleanup w) (placementLog w) ->
  placement_wf (cleanup (overlayElement_set x w)) (placementLog (overlayElement_set x w)).
Proof.
  intros H. unfold overlayElement_set.
  destruct x; [apply menu_order_notify_wf; exact H|].
  destruct (overlayElement w); [apply menu_order_notify_wf; exact H|exact H].
Qed.

Lemma menu_order_hide_wf (returnFocus : bool) (w : State) :
  placement_wf (cleanup w) (placementLog w) ->
  placement_wf (cleanup (hide returnFocus w)) (placementLog (hide returnFocus w)).
Proof.
  intros H. unfold hide.
  pose proof (menu_order_open_set_wf false w H) as H'.
  destruct returnFocus; [|exact H'].
  unfold focusTrigger. destruct (byId (doc (open_set false w))); exact H'.
Qed.

Lemma menu_order_handleKeyDown_wf (key : Key) (w : State) :
  placement_wf (cleanup w) (placementLog w) ->
  placement_wf (cleanup (useTrigger_handleKeyDown key w))
               (placementLog (useTrigger_handleKeyDown key w)).
Proof.
  intros H.
  destruct key; cbn [useTrigger_handleKeyDown];
    try exact (menu_order_hide_wf false w H);
    try exact (menu_order_open_set_wf (negb (open w)) w H);
    try exact (menu_order_open_set_wf true w H).
  exact H.
Qed.

Lemma menu_order_resume_wf (k : Continuation) (w : State) :
  placement_wf (cleanup w) (placementLog w) ->
  placement_wf (cleanup (resume k w)) (placementLog (resume k w)).
Proof.
  intros H. apply (menu_order_lifecycle_wf w); [|exact H].
  destruct k as [|key]; cbn [resume].
  - destruct (overlayElement w); reflexivity.
  - unfold setFirstItemActive, setLastItemActive.
    destruct key; symmetry; apply MenuSpec.activate_first_of_lifecycle.
Qed.

Section WithKeyManager.

Variable onKeydown : Key -> Document -> KeyManager -> KeyManager * list ManagerCall.

Lemma menu_order_step_placement_wf (ev : Event) (w : State) :
  placement_wf (cleanup w) (placementLog w) ->
  placement_wf (cleanup (step onKeydown ev w)) (placementLog (step onKeydown ev w)).
Proof.
  intros H.
  pose (P := fun x : State => placement_wf (cleanup x) (placementLog x)).
  change (P (step onKeydown ev w)). change (P w) in H.
  destruct ev as [e|e|e|e|e|e key|e key|e target|e target prevented|b|d| ]; cbn [step].
  - unfold useTrigger. apply menu_order_subscriber_wf. exact H.
  - unfold destroyTrigger. apply menu_order_hide_wf.
    exact (PlacementOrder.wf_invoke _ _ H).
  - unfold useMenu. exact (menu_order_overlayElement_set_wf (Some e) w H).
  - unfold destroyMenu. apply menu_order_overlayElement_set_wf. exact H.
  - apply iter_preserves; [|exact H].
    intros a Ha. exact (menu_order_open_set_wf (negb (open a)) a Ha).
  - apply iter_preserves; [|exact H].
    intros a Ha. apply menu_order_handleKeyDown_wf. exact Ha.
  - apply iter_preserves; [|exact H].
    intros a Ha. unfold useMenu_handleKeyDown.
    assert (Hother : P (let (km, calls) := onKeydown key (doc a) (keyManager a) in
                        fold_left (fun acc c => managerCall c acc) calls
                          (with_keyManager km a))).
    { destruct (onKeydown key (doc a) (keyManager a)) as [km calls].
      apply PlacementOrder.fold_left_invariant; [|exact Ha].
      intros x c Hx. destruct c; cbn [managerCall]; [exact Hx|].
      apply menu_order_hide_wf; exact Hx. }
    destruct key; try exact Hother. apply menu_order_hide_wf; exact Ha.
  - apply iter_preserves; [|exact H].
    intros a Ha. unfold overlayPointerOver.
    destruct (km_active (keyManager a)); [|exact Ha].
    destruct (roleMenuitem (doc a) target); [|exact Ha].
    unfold setActiveItem. destruct (existsb _ _); exact Ha.
  - apply iter_preserves; [|exact H].
    intros a Ha. unfold clickOutside.
    destruct (open a && negb prevented && negb _); [|exact Ha].
    apply menu_order_hide_wf; exact Ha.
  - apply menu_order_open_set_wf; exact H.
  - exact H.
  - unfold tick. apply PlacementOrder.fold_left_invariant; [|exact H].
    intros a k Ha. apply menu_order_resume_wf; exact Ha.
Qed.

(** X8: in every reachable state of the menu the [cleanup] variable holds
    the cleanup of the most recent attachment (the no-op before the first
    one), and every attachment after the first was made right after a call
    of the previous attachment's cleanup. *)
Theorem menu_cleans_before_attaching (config : MenuConfig) (d : Document) (w : State) :
  reachable onKeydown config d w ->
  cleanup w = latest_handle (placementLog w) /\
  cleaned_before_attach (placementLog w).
Proof.
  induction 1 as [|ev w Hr IH].
  - exact PlacementOrder.wf_empty.
  - exact (menu_order_step_placement_wf ev w IH).
Qed.

(** X9: the teardown of the only trigger closes the menu at once: OpenState
    is false when [destroy] returns, [onOpenChange(false)] has been called,
    the key manager is released, the stored cleanup has been called exactly
    once, nothing is focused and nothing is left waiting. *)
Theorem trigger_teardown_closes_menu (e : Elem) (w : State) :
  triggers w = [e] ->
  let w' := step onKeydown (DestroyTrigger e) w in
  open w' = false /\
  triggers w' = [] /\
  km_subscribed (keyManager w') = false /\
  placementLog w' = Placement.invoke (cleanup w) (placementLog w) /\
  cleanup w' = cleanup w /\
  openChangeLog w' = openChangeLog w ++ [false] /\
  focusLog w' = focusLog w /\
  awaiting w' = awaiting w.
Proof.
  intros Ht. cbn [step].
  destruct w as [op cl oe its km tr ov d aw pl fl ocl].
  destruct km as [ki ka ks]. cbn in Ht. subst tr.
  destruct op; MenuSpec.menu_compute; cbn [remove_first]; rewrite Nat.eqb_refl;
    MenuSpec.menu_compute; repeat split.
Qed.

(** X10: a click outside the overlay of an open menu closes the menu
    without focusing anything, unless its default was prevented or its
    target is the trigger, in which case it changes nothing; so a click on
    the trigger of an open menu closes it through [toggle] alone. *)
Theorem click_outside_closes_menu (o target : Elem) (prevented : bool) (w : State) :
  open w = true ->
  occurrences o (overlays w) = 1 ->
  let w' := step onKeydown (ClickOutside o target prevented) w in
  (prevented = false -> byId (doc w) <> Some target ->
     open w' = false /\
     focusLog w' = focusLog w /\
     openChangeLog w' = openChangeLog w ++ [false]) /\
  (prevented = true \/ byId (doc w) = Some target -> w' = w) /\
  (byId (doc w) = Some target -> occurrences target (triggers w) = 1 ->
     open (step onKeydown (TriggerClick target) w') = false).
Proof.
  intros Ho Hov. cbn [step]. rewrite Hov. cbn [iter].
  assert (Hkeep : prevented = true \/ byId (doc w) = Some target ->
                  clickOutside target prevented w = w).
  { intros [-> | E]; unfold clickOutside.
    - rewrite andb_false_r. reflexivity.
    - rewrite E, Nat.eqb_refl, andb_false_r. reflexivity. }
  split; [|split].
  - intros -> Hne. unfold clickOutside. rewrite Ho. cbn.
    assert (E : match byId (doc w) with Some t => Nat.eqb t target | None => false end
                = false).
    { destruct (byId (doc w)) as [t|]; [|reflexivity].
      destruct (Nat.eqb_spec t target); [subst; congruence|reflexivity]. }
    rewrite E. cbn. unfold hide.
    assert (Hlog : openChangeLog (open_set false w) = openChangeLog w ++ [false]).
    { unfold open_set, effect.
      destruct (Bool.eqb (open w) false); [reflexivity|].
      match goal with
      | |- context [notify ?x] =>
          destruct (MenuSpec.menu_notify_frame x) as (h2 & l2 & i2 & k2 & ->)
      end.
      reflexivity. }
    split; [|split; [|exact Hlog]];
      destruct (MenuSpec.menu_open_set_frame false w)
        as (h & log & its & km & aw & ocl & ->); reflexivity.
  - exact Hkeep.
  - intros E Ht. rewrite (Hkeep (or_intror E)).
    rewrite Ht. cbn [iter]. unfold toggle, open_update. rewrite Ho.
    destruct (MenuSpec.menu_open_set_frame (negb true) w)
      as (h & log & its & km & aw & ocl & ->).
    reflexivity.
Qed.

(** X11: Enter, Space or a click on the trigger of a closed menu opens it
    without activating an item: once the pending [tick] has resolved the
    overlay has been focused, [onOpenChange(true)] has been called (not
    before), and the active item is what it was. *)
Theorem plain_open_focuses_overlay (e o : Elem) (ev : Event) (w : State) :
  open w = false ->
  triggers w = [e] ->
  awaiting w = [] ->
  overlayElement w = Some o ->
  ev = TriggerKeydown e ENTER \/ ev = TriggerKeydown e SPACE \/ ev = TriggerClick e ->
  let opened := step onKeydown ev w in
  let settled := step onKeydown Tick opened in
  open opened = true /\
  focusLog opened = focusLog w /\
  openChangeLog opened = openChangeLog w /\
  open settled = true /\
  focusLog settled = focusLog w ++ [o] /\
  openChangeLog settled = openChangeLog w ++ [true] /\
  km_active (keyManager settled) = km_active (keyManager w) /\
  awaiting settled = [].
Proof.
  intros Ho Ht Ha Hov Hev.
  assert (Hstep : step onKeydown ev w = toggle w).
  { destruct Hev as [-> |[-> | ->]]; cbn [step]; rewrite Ht; cbn;
      rewrite Nat.eqb_refl; reflexivity. }
  cbv zeta. rewrite Hstep. cbn [step]. clear Hstep Hev.
  destruct w as [op cl oe its km tr ov d aw pl fl ocl].
  destruct km as [ki ka ks]. cbn in Ho, Ht, Ha, Hov. subst op tr aw oe.
  destruct ks; MenuSpec.menu_compute; repeat split.
Qed.

(** X12: pointer-over on the overlay changes nothing while no item is
    active, or when its target is not a menu item; with an item active, a
    menu item of the list under the pointer becomes the active item and is
    focused. *)
Theorem pointer_over_follows_active_item (o target : Elem) (w : State) :
  occurrences o (overlays w) = 1 ->
  let w' := step onKeydown (OverlayPointerOver o target) w in
  (km_active (keyManager w) = None -> w' = w) /\
  (roleMenuitem (doc w) target = false -> w' = w) /\
  (km_active (keyManager w) <> None ->
   roleMenuitem (doc w) target = true ->
   In target (km_items (keyManager w)) ->
   km_active (keyManager w') = Some target /\
   focusLog w' = focusLog w ++ [target] /\
   open w' = open w /\
   lifecycle w' = lifecycle w).
Proof.
  intros Hov. cbn [step]. rewrite Hov. cbn [iter]. unfold overlayPointerOver.
  split; [|split].
  - intros ->. reflexivity.
  - intros ->. destruct (km_active (keyManager w)); reflexivity.
  - intros Ha Hr Hin.
    destruct (km_active (keyManager w)) as [a|]; [|congruence].
    rewrite Hr. unfold setActiveItem.
    assert (E : existsb (Nat.eqb target) (km_items (keyManager w)) = true).
    { apply existsb_exists. exists target. split; [exact Hin|apply Nat.eqb_refl]. }
    rewrite E. repeat split.
Qed.

End WithKeyManager.

(** X13: when the overlay element is unmounted while the menu is open,
    OpenState stays true, the active item is cleared and the stored cleanup
    is called; when an overlay element is mounted again, the stored cleanup
    is called once more, a fresh attachment to the new element is made and
    the item list is read from the new element. *)
Theorem menu_overlay_remount_reattaches (e o o' : Elem) (w : State) :
  open w = true ->
  overlayElement w = Some o ->
  triggers w = [e] ->
  km_subscribed (keyManager w) = true ->
  let unmounted := destroyMenu o w in
  let remounted := useMenu o' unmounted in
  let n := S (Placement.attach_count (placementLog w)) in
  open unmounted = true /\
  overlayElement unmounted = None /\
  km_active (keyManager unmounted) = None /\
  placementLog unmounted = Placement.invoke (cleanup w) (placementLog w) /\
  focusLog remounted = focusLog w /\
  open remounted = true /\
  overlayElement remounted = Some o' /\
  cleanup remounted = Placement.Placed n /\
  placementLog remounted
  = Placement.invoke (cleanup w) (Placement.invoke (cleanup w) (placementLog w))
    ++ [Placement.Attach n e o'] /\
  km_items (keyManager remounted) = getMenuItems (doc w) o'.
Proof.
  intros Ho Hov Ht Hs.
  destruct w as [op cl oe its km tr ov d aw pl fl ocl].
  destruct km as [ki ka ks]. cbn in Ho, Hov, Ht, Hs. subst op oe tr ks.
  destruct cl; MenuSpec.menu_compute;
    rewrite ?PlacementSpec.attach_count_snoc_cleanup; repeat split.
Qed.

End MenuMore.

(** ** Properties of the item attributes *)
Module MenuAttrsSpec.
Import MenuAttrs.

Lemma prefixed_injective (a b : string) :
  String.append "menuitem_" a = String.append "menuitem_" b -> a = b.
Proof. cbn. intros [= H]. exact H. Qed.

(** X14: roving tabindex.  An item gets tabindex "0" exactly when the id
    of the active item is the id these attributes give the item, and "-1"
    otherwise; so two items with different ids are never both tabbable, and
    with no active item none is.  A plain string argument stands for id and
    label at once. *)
Theorem item_tabindex_follows_active_item (activeId : option string) (a b : ItemArg) :
  (property "tabindex" (itemAttrs activeId a) = Some "0"%string <->
   activeId = property "id" (itemAttrs activeId a)) /\
  (property "tabindex" (itemAttrs activeId a) = Some "0"%string \/
   property "tabindex" (itemAttrs activeId a) = Some "-1"%string) /\
  (property "tabindex" (itemAttrs activeId a) = Some "0"%string ->
   property "tabindex" (itemAttrs activeId b) = Some "0"%string ->
   arg_id a = arg_id b) /\
  property "tabindex" (itemAttrs None a) = Some "-1"%string /\
  property "id" (itemAttrs activeId a) = Some (String.append "menuitem_" (arg_id a)) /\
  property "data-label" (itemAttrs activeId a) = Some (arg_label a) /\
  (forall text, itemAttrs activeId (Plain text) = itemAttrs activeId (Labelled text text)).
Proof.
  assert (Hzero : forall x,
            property "tabindex" (itemAttrs activeId x) = Some "0"%string <->
            activeId = Some (String.append "menuitem_" (arg_id x))).
  { intros x. unfold itemAttrs. cbn [property String.eqb Ascii.eqb Bool.eqb].
    destruct activeId as [act|]; [|split; discriminate].
    destruct (String.eqb_spec act (String.append "menuitem_" (arg_id x))) as [->|Hne].
    - split; reflexivity.
    - split; [discriminate|]. intros [= E]. contradiction. }
  split; [exact (Hzero a)|].
  split.
  { unfold itemAttrs. cbn [property String.eqb Ascii.eqb Bool.eqb].
    destruct activeId as [act|]; [|right; reflexivity].
    destruct (String.eqb act _); [left|right]; reflexivity. }
  split.
  { intros Ha Hb. apply Hzero in Ha. apply Hzero in Hb.
    rewrite Ha in Hb. apply prefixed_injective. congruence. }
  repeat split.
Qed.

End MenuAttrsSpec.

(** ** The further properties at concrete states *)
Module Examples.

Lemma tooltip_opened_reachable :
  Tooltip.reachable Timeout.Restart (Tooltip.mkConfig None None)
    (tooltip_opened Timeout.Restart).
Proof.
  unfold tooltip_opened, tooltip_mounted, Tooltip.run. cbn [fold_left].
  do 4 apply Tooltip.reach_step. apply Tooltip.reach_create.
Defined.

Lemma tooltip_mounted_reachable :
  Tooltip.reachable Timeout.Restart (Tooltip.mkConfig None None)
    (tooltip_mounted Timeout.Restart).
Proof.
  unfold tooltip_mounted, Tooltip.run. cbn [fold_left].
  do 2 apply Tooltip.reach_step. apply Tooltip.reach_create.
Defined.

Lemma menu_opened_reachable :
  Menu.reachable idle_onKeydown (Menu.mkConfig None) menu_document menu_opened.
Proof.
  unfold menu_opened, menu_mounted, Menu.run. cbn [fold_left].
  do 4 apply Menu.reach_step. apply Menu.reach_create.
Defined.

Lemma tooltip_cleans_before_attaching_witness :
  Tooltip.reachable Timeout.Restart (Tooltip.mkConfig None None)
    (tooltip_opened Timeout.Restart) /\
  Tooltip.cleanup (tooltip_opened Timeout.Restart)
  = latest_handle (Tooltip.placementLog (tooltip_opened Timeout.Restart)).
Proof.
  exact (conj tooltip_opened_reachable
           (proj1 (TooltipMore.tooltip_cleans_before_attaching Timeout.Restart
                     (Tooltip.mkConfig None None) (tooltip_opened Timeout.Restart)
                     tooltip_opened_reachable))).
Defined.

Lemma tooltip_attaches_only_when_shown_witness :
  let w := tooltip_mounted Timeout.Restart in
  Tooltip.reachable Timeout.Restart (Tooltip.mkConfig None None) w /\
  Placement.attach_count (Tooltip.placementLog (Tooltip.step Timeout.Restart Tooltip.Toggle w))
  <> Placement.attach_count (Tooltip.placementLog w) /\
  Tooltip.attached_condition (Tooltip.step Timeout.Restart Tooltip.Toggle w) = true.
Proof.
  intros w.
  assert (H : Placement.attach_count
                (Tooltip.placementLog (Tooltip.step Timeout.Restart Tooltip.Toggle w))
              <> Placement.attach_count (Tooltip.placementLog w)).
  { intros E. cbv in E. discriminate E. }
  exact (conj tooltip_mounted_reachable
           (conj H
              (proj1 (TooltipMore.tooltip_attaches_only_when_shown Timeout.Restart
                        (Tooltip.mkConfig None None) Tooltip.Toggle w
                        tooltip_mounted_reachable H)))).
Defined.

Lemma hover_cycle_opens_then_closes_witness :
  let w := tooltip_mounted Timeout.Restart in
  Tooltip.reachable Timeout.Restart (Tooltip.mkConfig None None) w /\
  occurrences 1 (Tooltip.triggers w) = 1 /\
  occurrences 1 (Tooltip.overlays w) = 0 /\
  (Timeout.Restart = Timeout.Restart \/ Timeout.pending (Tooltip.showTimer w) = false) /\
  Tooltip.openDelay w <= 1000 /\
  500 <= 500 /\
  Tooltip.openChanges
    (Tooltip.elapse 500
       (Tooltip.dispatch Timeout.Restart 1 Tooltip.PointerLeave
          (Tooltip.elapse 1000
             (Tooltip.dispatch Timeout.Restart 1 Tooltip.PointerEnter w))))
  = Tooltip.openChanges w ++ [true; false].
Proof.
  intros w.
  assert (H1 : occurrences 1 (Tooltip.triggers w) = 1) by reflexivity.
  assert (H2 : occurrences 1 (Tooltip.overlays w) = 0) by reflexivity.
  assert (H3 : Timeout.Restart = Timeout.Restart
               \/ Timeout.pending (Tooltip.showTimer w) = false) by (left; reflexivity).
  assert (H4 : Tooltip.openDelay w <= 1000) by (cbn; lia).
  assert (H5 : 500 <= 500) by lia.
  exact (conj tooltip_mounted_reachable (conj H1 (conj H2 (conj H3 (conj H4 (conj H5
           (proj2 (proj2 (proj2
              (TooltipMore.hover_cycle_opens_then_closes Timeout.Restart
                 (Tooltip.mkConfig None None) 1 1000 500 w
                 tooltip_mounted_reachable H1 H2 H3 H4 H5)))))))))).
Defined.

Lemma overlay_hover_keeps_tooltip_open_witness :
  let w := tooltip_opened Timeout.Restart in
  occurrences 2 (Tooltip.overlays w) = 1 /\
  occurrences 2 (Tooltip.triggers w) = 0 /\
  Tooltip.open w = true /\
  Tooltip.open
    (tooltip_elapses Timeout.Restart [700]
       (Tooltip.dispatch Timeout.Restart 2 Tooltip.PointerEnter w)) = true.
Proof.
  intros w.
  assert (H1 : occurrences 2 (Tooltip.overlays w) = 1) by reflexivity.
  assert (H2 : occurrences 2 (Tooltip.triggers w) = 0) by reflexivity.
  assert (H3 : Tooltip.open w = true) by reflexivity.
  exact (conj H1 (conj H2 (conj H3
           (proj1 (proj2
              (TooltipMore.overlay_hover_keeps_tooltip_open Timeout.Restart
                 2 [700] w H1 H2 H3)))))).
Defined.

Lemma toggle_leaves_pending_hide_witness :
  let w := tooltip_hiding Timeout.Restart in
  Tooltip.open w = false /\
  Timeout.scheduled (Tooltip.showTimer w) = None /\
  Timeout.scheduled (Tooltip.hideTimer w) = Some 500 /\
  500 <= Tooltip.now w + 500 /\
  Tooltip.open (Tooltip.elapse 500 (Tooltip.toggle w)) = false.
Proof.
  intros w.
  assert (H1 : Tooltip.open w = false) by reflexivity.
  assert (H2 : Timeout.scheduled (Tooltip.showTimer w) = None) by reflexivity.
  assert (H3 : Timeout.scheduled (Tooltip.hideTimer w) = Some 500) by reflexivity.
  assert (H4 : 500 <= Tooltip.now w + 500) by (cbn; lia).
  exact (conj H1 (conj H2 (conj H3 (conj H4
           (proj1 (proj2 (proj2 (proj2
              (TooltipMore.toggle_leaves_pending_hide 500 500 w H1 H2 H3 H4))))))))).
Defined.

Lemma timers_stay_exclusive_witness :
  Tooltip.reachable Timeout.Restart (Tooltip.mkConfig None None)
    (tooltip_opened Timeout.Restart) /\
  Timeout.delay (Tooltip.hideTimer (tooltip_opened Timeout.Restart)) = 500.
Proof.
  exact (conj tooltip_opened_reachable
           (proj1 (proj2 (TooltipMore.timers_stay_exclusive Timeout.Restart
                            (Tooltip.mkConfig None None) (tooltip_opened Timeout.Restart)
                            tooltip_opened_reachable)))).
Defined.

Lemma overlay_remount_reattaches_witness :
  let w := tooltip_opened Timeout.Restart in
  Tooltip.open w = true /\
  Tooltip.tooltipElement w = Some 2 /\
  Tooltip.triggers w = [1] /\
  Tooltip.open (Tooltip.destroyTooltip 2 w) = true.
Proof.
  intros w.
  assert (H1 : Tooltip.open w = true) by reflexivity.
  assert (H2 : Tooltip.tooltipElement w = Some 2) by reflexivity.
  assert (H3 : Tooltip.triggers w = [1]) by reflexivity.
  exact (conj H1 (conj H2 (conj H3
           (proj1 (TooltipMore.overlay_remount_reattaches 1 2 3 w H1 H2 H3))))).
Defined.

Lemma menu_cleans_before_attaching_witness :
  Menu.reachable idle_onKeydown (Menu.mkConfig None) menu_document menu_opened /\
  Menu.cleanup menu_opened = latest_handle (Menu.placementLog menu_opened).
Proof.
  exact (conj menu_opened_reachable
           (proj1 (MenuMore.menu_cleans_before_attaching idle_onKeydown
                     (Menu.mkConfig None) menu_document menu_opened
                     menu_opened_reachable))).
Defined.

Lemma trigger_teardown_closes_menu_witness :
  Menu.triggers menu_opened = [1] /\
  Menu.open (Menu.step idle_onKeydown (Menu.DestroyTrigger 1) menu_opened) = false.
Proof.
  assert (H1 : Menu.triggers menu_opened = [1]) by reflexivity.
  exact (conj H1
           (proj1 (MenuMore.trigger_teardown_closes_menu idle_onKeydown 1 menu_opened H1))).
Defined.

Lemma click_outside_closes_menu_witness :
  Menu.open menu_opened = true /\
  occurrences 2 (Menu.overlays menu_opened) = 1 /\
  Menu.open (Menu.step idle_onKeydown (Menu.ClickOutside 2 5 false) menu_opened) = false.
Proof.
  assert (H1 : Menu.open menu_opened = true) by reflexivity.
  assert (H2 : occurrences 2 (Menu.overlays menu_opened) = 1) by reflexivity.
  assert (H3 : Menu.byId (Menu.doc menu_opened) <> Some 5) by discriminate.
  exact (conj H1 (conj H2
           (proj1 (proj1 (MenuMore.click_outside_closes_menu idle_onKeydown
                            2 5 false menu_opened H1 H2) eq_refl H3)))).
Defined.

Lemma plain_open_focuses_overlay_witness :
  Menu.open menu_mounted = false /\
  Menu.triggers menu_mounted = [1] /\
  Menu.awaiting menu_mounted = [] /\
  Menu.overlayElement menu_mounted = Some 2 /\
  Menu.focusLog
    (Menu.step idle_onKeydown Menu.Tick
       (Menu.step idle_onKeydown (Menu.TriggerClick 1) menu_mounted))
  = Menu.focusLog menu_mounted ++ [2].
Proof.
  assert (H1 : Menu.open menu_mounted = false) by reflexivity.
  assert (H2 : Menu.triggers menu_mounted = [1]) by reflexivity.
  assert (H3 : Menu.awaiting menu_mounted = []) by reflexivity.
  assert (H4 : Menu.overlayElement menu_mounted = Some 2) by reflexivity.
  exact (conj H1 (conj H2 (conj H3 (conj H4
           (proj1 (proj2 (proj2 (proj2 (proj2
              (MenuMore.plain_open_focuses_overlay idle_onKeydown 1 2
                 (Menu.TriggerClick 1) menu_mounted H1 H2 H3 H4
                 (or_intror (or_intror eq_refl)))))))))))).
Defined.

Lemma pointer_over_follows_active_item_witness :
  occurrences 2 (Menu.overlays menu_navigating) = 1 /\
  Menu.km_active (Menu.keyManager menu_navigating) <> None /\
  Menu.roleMenuitem (Menu.doc menu_navigating) 12 = true /\
  In 12 (Menu.km_items (Menu.keyManager menu_navigating)) /\
  Menu.km_active
    (Menu.keyManager
       (Menu.step idle_onKeydown (Menu.OverlayPointerOver 2 12) menu_navigating))
  = Some 12.
Proof.
  assert (H1 : occurrences 2 (Menu.overlays menu_navigating) = 1) by reflexivity.
  assert (H2 : Menu.km_active (Menu.keyManager menu_navigating) <> None) by discriminate.
  assert (H3 : Menu.roleMenuitem (Menu.doc menu_navigating) 12 = true) by reflexivity.
  assert (H4 : In 12 (Menu.km_items (Menu.keyManager menu_navigating))).
  { right. right. left. reflexivity. }
  exact (conj H1 (conj H2 (conj H3 (conj H4
           (proj1 (proj2 (proj2 (MenuMore.pointer_over_follows_active_item idle_onKeydown
                                   2 12 menu_navigating H1)) H2 H3 H4)))))).
Defined.

Lemma menu_overlay_remount_reattaches_witness :
  Menu.open menu_opened = true /\
  Menu.overlayElement menu_opened = Some 2 /\
  Menu.triggers menu_opened = [1] /\
  Menu.km_subscribed (Menu.keyManager menu_opened) = true /\
  Menu.open (Menu.destroyMenu 2 menu_opened) = true.
Proof.
  assert (H1 : Menu.open menu_opened = true) by reflexivity.
  assert (H2 : Menu.overlayElement menu_opened = Some 2) by reflexivity.
  assert (H3 : Menu.triggers menu_opened = [1]) by reflexivity.
  assert (H4 : Menu.km_subscribed (Menu.keyManager menu_opened) = true) by reflexivity.
  exact (conj H1 (conj H2 (conj H3 (conj H4
           (proj1 (MenuMore.menu_overlay_remount_reattaches 1 2 3 menu_opened
                     H1 H2 H3 H4)))))).
Defined.

End Examples.
